(** * AGS validator: result classification and report synthesis

    A shallow embedding of [app/ags.py]: the report template, the
    validation and conversion classifiers, the log validity test and
    the locator of an undecodable character.

    Text is a list of 8-bit characters (code points 0..255, the range
    of ISO-8859-1).  Inside that range the regular expression class
    [\d] is exactly the ten digits 0..9.

    The two entry points are modelled from the point where
    [subprocess.run] has returned: its result, the log file read
    after it, the clock and the file system are arguments.  A Python
    exception is a value [Raise e] of the result type. *)

From Stdlib Require Import List Ascii String NArith ZArith Lia.
From stdpp Require Import base gmap list strings.

Open Scope list_scope.

(** ** Text *)

Definition text := list ascii.

Definition str (s : string) : text := list_ascii_of_string s.

Definition LF : ascii := "010"%char.
Definition CR : ascii := "013"%char.
Definition TAB : ascii := "009"%char.
Definition DQUOTE : ascii := "034"%char.

Definition not_LF (c : ascii) : bool := negb (Ascii.eqb c LF).

(** [s.startswith(p)] *)
Fixpoint startswith (p s : text) : bool :=
  match p, s with
  | [], _ => true
  | _ :: _, [] => false
  | a :: p', b :: s' => if Ascii.eqb a b then startswith p' s' else false
  end.

(** [a == b] on strings. *)
Fixpoint text_eqb (a b : text) : bool :=
  match a, b with
  | [], [] => true
  | x :: a', y :: b' => if Ascii.eqb x y then text_eqb a' b' else false
  | _, _ => false
  end.

(** [p in s] for strings: some suffix of [s] starts with [p]. *)
Fixpoint contains (p s : text) : bool :=
  if startswith p s then true
  else match s with
       | [] => false
       | _ :: s' => contains p s'
       end.

(** [s.count(c)] for a one-character [c]. *)
Fixpoint count (c : ascii) (s : text) : nat :=
  match s with
  | [] => 0
  | a :: s' => (if Ascii.eqb a c then 1 else 0) + count c s'
  end.

(** [s.split(c)] for a one-character separator: never empty. *)
Fixpoint split (c : ascii) (s : text) : list text :=
  match s with
  | [] => [[]]
  | a :: s' =>
      if Ascii.eqb a c then [] :: split c s'
      else match split c s' with
           | [] => [[a]]
           | w :: ws => (a :: w) :: ws
           end
  end.

(** [l[-1]] on a list known to be non-empty. *)
Definition last_item (l : list text) : text := default [] (last l).

Definition digit_char (d : N) : ascii := ascii_of_nat (48 + N.to_nat d).

(** The decimal digits of [n] in front of [acc], the last digit first
    to be produced; [fuel] bounds their number. *)
Fixpoint digits (fuel : nat) (n : N) (acc : text) : text :=
  match fuel with
  | O => acc
  | S fuel' =>
      let acc' := digit_char (n mod 10) :: acc in
      if (n <? 10)%N then acc' else digits fuel' (n / 10) acc'
  end.

(** [str(n)] for a non-negative integer; a number has no more decimal
    digits than binary ones. *)
Definition str_of_N (n : N) : text :=
  digits (S (N.to_nat (N.log2 n))) n [].

Definition is_digit (c : ascii) : bool :=
  let n := nat_of_ascii c in (48 <=? n)%nat && (n <=? 57)%nat.

Definition digit_value (c : ascii) : N := N.of_nat (nat_of_ascii c - 48).

(** [int(s)] on a run of decimal digits, most significant first. *)
Definition int (s : text) : N :=
  fold_left (fun acc c => (10 * acc + digit_value c)%N) s 0%N.

(** ** Exceptions *)

Inductive exn : Type :=
  | AttributeError   (* attribute access on None *)
  | TypeError        (* an argument of the wrong type, here None for a string *)
  | FileNotFoundError
  | ValueError
  | KeyError.

Inductive res (A : Type) : Type :=
  | Ok (a : A)
  | Raise (e : exn).
Arguments Ok {A} a.
Arguments Raise {A} e.

Definition bind {A B} (m : res A) (k : A -> res B) : res B :=
  match m with
  | Ok a => k a
  | Raise e => Raise e
  end.

Notation "'let*' x ':=' m 'in' k" := (bind m (fun x => k))
  (at level 10, x name, m at level 100, k at level 200).

Definition raises {A} (m : res A) : Prop := exists e, m = Raise e.

(** ** Regular expressions

    The fragment of Python's [re] the module uses: a sequence of items,
    each a character class taken once, [*] or [+] (greedy), at most one
    of them a capturing group.  The matcher backtracks as [re] does:
    a repetition first takes as many characters as it can and gives
    them back one at a time. *)

Module Re.

Inductive cls : Type :=
  | Chr (c : ascii)   (* a literal or escaped character *)
  | Digit             (* \d *)
  | Dot.              (* .  any character but a newline *)

Inductive quant : Type := Once | Star | Plus.

Record item : Type := Item { it_cls : cls; it_quant : quant; it_group : bool }.

Definition pattern := list item.

Definition accepts (k : cls) (c : ascii) : bool :=
  match k with
  | Chr a => Ascii.eqb a c
  | Digit => is_digit c
  | Dot => negb (Ascii.eqb c LF)
  end.

(** Number of leading characters of [s] in class [k]. *)
Fixpoint span (k : cls) (s : text) : nat :=
  match s with
  | [] => 0
  | c :: s' => if accepts k c then S (span k s') else 0
  end.

(** Try [f (lo + d)], [f (lo + d - 1)], ..., [f lo]; first success wins. *)
Fixpoint greedy {A} (f : nat -> option A) (lo d : nat) : option A :=
  match f (lo + d)%nat with
  | Some r => Some r
  | None => match d with
            | O => None
            | S d' => greedy f lo d'
            end
  end.

Definition repeat_from {A} (lo : nat) (k : cls) (s : text)
    (f : nat -> option A) : option A :=
  let n := span k s in
  if (lo <=? n)%nat then greedy f lo (n - lo) else None.

Definition capture (it : item) (w : text) (g : option text) : option text :=
  if it_group it then Some w else g.

(** [run p s g]: match [p] at the start of [s]; the result is the
    content of group 1 ([None] while unset). *)
Fixpoint run (p : pattern) (s : text) (g : option text)
    : option (option text) :=
  match p with
  | [] => Some g
  | it :: p' =>
      match it_quant it with
      | Once =>
          match s with
          | c :: s' =>
              if accepts (it_cls it) c then run p' s' (capture it [c] g)
              else None
          | [] => None
          end
      | Star =>
          repeat_from 0 (it_cls it) s
            (fun n => run p' (drop n s) (capture it (take n s) g))
      | Plus =>
          repeat_from 1 (it_cls it) s
            (fun n => run p' (drop n s) (capture it (take n s) g))
      end
  end.

(** [re.match(p, s)]: anchored at the start. *)
Definition rmatch (p : pattern) (s : text) : option (option text) :=
  run p s None.

(** [re.search(p, s)]: the first start position that matches. *)
Fixpoint search (p : pattern) (s : text) : option (option text) :=
  match run p s None with
  | Some g => Some g
  | None => match s with
            | [] => None
            | _ :: s' => search p s'
            end
  end.

Definition lit (s : string) : pattern :=
  map (fun c => Item (Chr c) Once false) (str s).

End Re.

(** [r'\d+ error\(s\) found in file'] *)
Definition ERRORS_FOUND : Re.pattern :=
  Re.Item Re.Digit Re.Plus false :: Re.lit " error(s) found in file".

(** [r'.*in position (\d+):.*'] *)
Definition IN_POSITION : Re.pattern :=
  Re.Item Re.Dot Re.Star false :: Re.lit "in position "
    ++ Re.Item Re.Digit Re.Plus true :: Re.lit ":"
    ++ [Re.Item Re.Dot Re.Star false].

(** ** Numbers in the report *)

(** A non-negative double whose value is [dnum / 2 ^ dexp]. *)
Record float : Type := Float { dnum : N; dexp : N }.

(** The double nearest to the integer [n] (ties to the even
    significand), itself an integer: 53 bits of [n] are kept. *)
Definition nearest_double (n : N) : N :=
  let bits := N.size n in
  if (bits <=? 53)%N then n
  else
    let sh := (bits - 53)%N in
    let q := N.shiftr n sh in
    let r := N.land n (N.ones sh) in
    let half := N.shiftl 1 (sh - 1) in
    let q' := if (half <? r)%N || ((r =? half)%N && N.odd q)
              then (q + 1)%N else q in
    N.shiftl q' sh.

(** [n / 2 ** k] for an integer [n]: Python's true division is
    correctly rounded, and dividing by a power of two only moves the
    exponent. *)
Definition true_div_pow2 (n k : N) : float :=
  Float (nearest_double n) k.

(** Round to the nearest integer, ties to even. *)
Definition round_half_even (x : float) : N :=
  let d := N.shiftl 1 (dexp x) in
  let q := (dnum x / d)%N in
  let r := (dnum x mod d)%N in
  if (d <? 2 * r)%N || ((2 * r =? d)%N && N.odd q) then (q + 1)%N else q.

(** ** Formatting: [str.format] *)

Inductive value : Type :=
  | VStr (t : text)
  | VFloat (x : float).

(** [format(v, spec)] for the two conversions the template uses: a
    string with the empty specification and a float with [0.0f]
    (fixed point, no decimals).  Other pairs are outside this model. *)
Definition format_value (v : value) (spec : text) : res text :=
  match v with
  | VStr t => if text_eqb spec [] then Ok t else Raise ValueError
  | VFloat x =>
      if text_eqb spec (str "0.0f") then Ok (str_of_N (round_half_even x))
      else Raise ValueError
  end.

Definition kwargs := list (text * value).

Fixpoint lookup_kw (k : text) (kw : kwargs) : res value :=
  match kw with
  | [] => Raise KeyError
  | (k', v) :: kw' => if text_eqb k k' then Ok v else lookup_kw k kw'
  end.

(** Text up to the first [c] and the text after it. *)
Fixpoint break_at (c : ascii) (s : text) : option (text * text) :=
  match s with
  | [] => None
  | a :: s' =>
      if Ascii.eqb a c then Some ([], s')
      else match break_at c s' with
           | Some (w, rest) => Some (a :: w, rest)
           | None => None
           end
  end.

(** A replacement field body [name] or [name:spec]. *)
Definition field (body : text) (kw : kwargs) : res text :=
  match break_at ":" body with
  | Some (name, spec) => let* v := lookup_kw name kw in format_value v spec
  | None => let* v := lookup_kw body kw in format_value v []
  end.

(** [template.format(...)] with keyword arguments [kw]: literal text
    is copied, a doubled brace stands for one brace, and [{body}] is
    replaced by its field; a brace left alone is an error.  The fuel
    bounds the number of steps and is the template length at every
    call. *)
Fixpoint format_from (fuel : nat) (template : text) (kw : kwargs) : res text :=
  match fuel with
  | O => Ok []
  | S fuel' =>
      match template with
      | [] => Ok []
      | c :: rest =>
          if Ascii.eqb c "{" then
            if startswith ["{"%char] rest then
              let* out := format_from fuel' (drop 1 rest) kw in
              Ok (c :: out)
            else
              match break_at "}" rest with
              | Some (body, rest') =>
                  let* v := field body kw in
                  let* out := format_from fuel' rest' kw in
                  Ok (v ++ out)
              | None => Raise ValueError
              end
          else if Ascii.eqb c "}" then
            if startswith ["}"%char] rest then
              let* out := format_from fuel' (drop 1 rest) kw in
              Ok (c :: out)
            else Raise ValueError
          else let* out := format_from fuel' rest kw in Ok (c :: out)
      end
  end.

Definition format (template : text) (kw : kwargs) : res text :=
  format_from (length template) template kw.

(** ** [textwrap.dedent] and [str.strip] *)

Definition is_blank (c : ascii) : bool := Ascii.eqb c " " || Ascii.eqb c TAB.

(** [str.isspace] on a character of the ISO-8859-1 range. *)
Definition is_space (c : ascii) : bool :=
  let n := nat_of_ascii c in
  ((9 <=? n) && (n <=? 13) || (28 <=? n) && (n <=? 32)
   || (n =? 133) || (n =? 160))%nat.

Fixpoint takewhile (f : ascii -> bool) (s : text) : text :=
  match s with
  | [] => []
  | c :: s' => if f c then c :: takewhile f s' else []
  end.

Fixpoint dropwhile (f : ascii -> bool) (s : text) : text :=
  match s with
  | [] => []
  | c :: s' => if f c then dropwhile f s' else s
  end.

Fixpoint common_prefix (a b : text) : text :=
  match a, b with
  | x :: a', y :: b' => if Ascii.eqb x y then x :: common_prefix a' b' else []
  | _, _ => []
  end.

Definition join_lines (ls : list text) : text :=
  match ls with
  | [] => []
  | l :: ls' => l ++ flat_map (fun w => LF :: w) ls'
  end.

(** The longest run of blanks every line with a visible character
    starts with. *)
Definition margin (ls : list text) : option text :=
  fold_left
    (fun m l =>
       let indent := takewhile is_blank l in
       match m with
       | None => Some indent
       | Some m' => Some (common_prefix m' indent)
       end)
    (filter (fun l => l <> []) ls) None.

Definition dedent (t : text) : text :=
  let ls := map (fun l => if forallb is_blank l then [] else l) (split LF t) in
  match margin ls with
  | Some m =>
      join_lines
        (map (fun l => if startswith m l then drop (length m) l else l) ls)
  | None => join_lines ls
  end.

Definition lstrip (t : text) : text := dropwhile is_space t.

Definition strip (t : text) : text := rev (lstrip (rev (lstrip t))).

(** ** The clock: [datetime] and [strftime] *)

Record datetime : Type := Datetime {
  year : N; month : N; day : N; hour : N; minute : N; second : N
}.

(** Decimal digits of [n], filled with zeros on the left up to [width]. *)
Definition zero_pad (width : nat) (n : N) : text :=
  let d := str_of_N n in
  repeat "0"%char (width - length d) ++ d.

(** The directives of [strftime] the module uses; [%Y] prints four
    digits for the years a present-day clock gives. *)
Definition directive (c : ascii) (t : datetime) : text :=
  if Ascii.eqb c "Y" then zero_pad 4 (year t)
  else if Ascii.eqb c "m" then zero_pad 2 (month t)
  else if Ascii.eqb c "d" then zero_pad 2 (day t)
  else if Ascii.eqb c "H" then zero_pad 2 (hour t)
  else if Ascii.eqb c "M" then zero_pad 2 (minute t)
  else if Ascii.eqb c "S" then zero_pad 2 (second t)
  else ["%"%char; c].

Fixpoint strftime (t : datetime) (fmt : text) : text :=
  match fmt with
  | [] => []
  | c :: rest =>
      if Ascii.eqb c "%" then
        match rest with
        | d :: rest' => directive d t ++ strftime t rest'
        | [] => [c]
        end
      else c :: strftime t rest
  end.

(** ** The report template *)

(** The literal between the triple quotes, as written in the source. *)
Definition RESPONSE_TEMPLATE_literal : text :=
  [LF] ++ str "    File Name: " ++ [TAB] ++ str " {filename}" ++ [LF]
  ++ str "    File Size: " ++ [TAB] ++ str " {filesize:0.0f} kB" ++ [LF]
  ++ str "    Time (UTC): " ++ [TAB] ++ str " {time_utc}" ++ [LF]
  ++ [LF]
  ++ str "    {message}" ++ [LF]
  ++ str "    ".

Definition RESPONSE_TEMPLATE : text :=
  strip (dedent RESPONSE_TEMPLATE_literal).

(** [RESPONSE_TEMPLATE.format(filename=..., filesize=..., time_utc=...,
    message=...)] *)
Definition format_response (filename : text) (filesize : float)
    (time_utc message : text) : res text :=
  format RESPONSE_TEMPLATE
    [(str "filename", VStr filename); (str "filesize", VFloat filesize);
     (str "time_utc", VStr time_utc); (str "message", VStr message)].

(** ** Paths and files *)

(** A path is the list of its components; a component holds no
    separator. *)
Definition Path := list text.

(** [p.name] *)
Definition name (p : Path) : text := default [] (last p).

(** [s.rfind(c)]: the index of the last [c], when there is one. *)
Fixpoint rfind (c : ascii) (s : text) : option nat :=
  match s with
  | [] => None
  | a :: s' =>
      match rfind c s' with
      | Some i => Some (S i)
      | None => if Ascii.eqb a c then Some 0 else None
      end
  end.

(** Where the suffix of a file name starts: at its last dot, unless
    that dot is the first or the last character. *)
Definition suffix_start (n : text) : option nat :=
  match rfind "." n with
  | Some i => if (0 <? i)%nat && (i <? length n - 1)%nat then Some i else None
  | None => None
  end.

(** [p.suffix] *)
Definition suffix (p : Path) : text :=
  match suffix_start (name p) with
  | Some i => drop i (name p)
  | None => []
  end.

(** [p.stem] *)
Definition stem (p : Path) : text :=
  match suffix_start (name p) with
  | Some i => take i (name p)
  | None => name p
  end.

(** [d / s] for a single component [s]. *)
Definition joinpath (d : Path) (s : text) : Path := d ++ [s].

(** The file system: the regular files and their bytes.  A path
    outside the map names nothing. *)
Abbreviation FileSystem := (gmap Path (list Byte.byte)).

(** [p.stat().st_size] *)
Definition st_size (fs : FileSystem) (p : Path) : res N :=
  match fs !! p with
  | Some b => Ok (N.of_nat (length b))
  | None => Raise FileNotFoundError
  end.

(** [p.unlink(missing_ok=True)], for a path that names a regular file
    or nothing. *)
Definition unlink (fs : FileSystem) (p : Path) : FileSystem := delete p fs.

(** ISO-8859-1 maps every byte to the character of the same code. *)
Definition decode_latin1 (b : list Byte.byte) : text := map ascii_of_byte b.

(** Text mode with the default [newline=None]: carriage return, line
    feed pairs and lone carriage returns are read as a line feed. *)
Fixpoint universal_newlines (s : text) : text :=
  match s with
  | [] => []
  | c :: s' =>
      if Ascii.eqb c CR then
        LF :: match s' with
              | [] => []
              | d :: s'' =>
                  if Ascii.eqb d LF then universal_newlines s''
                  else universal_newlines s'
              end
      else c :: universal_newlines s'
  end.

(** The characters [open(p, encoding='ISO-8859-1')] yields. *)
Definition open_text (fs : FileSystem) (p : Path) : res text :=
  match fs !! p with
  | Some b => Ok (universal_newlines (decode_latin1 b))
  | None => Raise FileNotFoundError
  end.

(** ** The functions of [ags.py] *)

(** What [subprocess.run] returns. *)
Record CompletedProcess : Type := Completed {
  returncode : Z; stdout : text; stderr : text
}.

(** [line_of_error(filename, char_no)]: the column, the line number,
    the start of the line and the character at [char_no].  The count
    given to [f.read] is one it takes, at most [sys.maxsize]; the
    statements below that promise an answer keep the offset inside the
    file or at most [MAXSIZE]. *)
Definition line_of_error (fs : FileSystem) (filename : Path) (char_no : N)
    : res (nat * nat * text * text) :=
  let* f := open_text fs filename in
  let upto := take (N.to_nat char_no) f in
  let line_no := (count LF upto + 1)%nat in
  let line := last_item (split LF upto) in
  let char_no' := (length line + 1)%nat in
  let char := take 1 (drop (N.to_nat char_no) f) in
  Ok (char_no', line_no, line, char).

(** The f-string of [get_unicode_message]. *)
Definition unicode_message (char_no line_no : nat) (line char : text) : text :=
  str "ERROR: Unreadable character " ++ [DQUOTE] ++ char ++ [DQUOTE]
  ++ str " at position " ++ str_of_N (N.of_nat char_no)
  ++ str " on line: " ++ str_of_N (N.of_nat line_no) ++ [LF]
  ++ str "Starting: " ++ line ++ [LF] ++ [LF].

(** [get_unicode_message(stderr, filename)].  [m.group(1)] on a
    failed search is an attribute access on [None]. *)
Definition get_unicode_message (fs : FileSystem) (stderr : text) (filename : Path)
    : res text :=
  match Re.search IN_POSITION stderr with
  | None => Raise AttributeError
  | Some None => Raise TypeError
  | Some (Some digits) =>
      let* loc := line_of_error fs filename (int digits) in
      let '(char_no, line_no, line, char) := loc in
      Ok (unicode_message char_no line_no line char)
  end.

(** The outcome of the [if]/[elif] chain of [validate]: either
    [use_template] is set and [message] bound, or [use_template] is
    cleared and [message] left unbound. *)
Inductive classification : Type :=
  | UseTemplate (message : text)
  | PassThrough.

Definition use_template (c : classification) : bool :=
  match c with
  | UseTemplate _ => true
  | PassThrough => false
  end.

(** The [if]/[elif] chain of [validate].  [re.match] on a log that is
    [None] is a call with an argument of the wrong type. *)
Definition classify (fs : FileSystem) (filename : Path) (result : CompletedProcess)
    (log : option text) : res classification :=
  if negb (returncode result =? 0)%Z then
    if contains (str "UnicodeDecodeError:") (stderr result) then
      let* message := get_unicode_message fs (stderr result) filename in
      Ok (UseTemplate message)
    else Ok (UseTemplate (str "ERROR: " ++ stderr result))
  else if startswith (str "ERROR: ") (stdout result) then
    Ok (UseTemplate (stdout result))
  else
    match log with
    | None => Raise TypeError
    | Some l =>
        match Re.rmatch ERRORS_FOUND l with
        | Some _ => Ok (UseTemplate l)
        | None => Ok PassThrough
        end
    end.

Definition TIME_FORMAT : text := str "%Y-%m-%d %H:%M:%S".

(** [validate(filename)] from the point where the checker has
    returned [result] and the log file, when there is one, has been
    read into [log]; [now] is the clock.  Logging leaves the value
    returned alone.  That value is [log] itself on the last branch, so
    it has the type of [log]. *)
Definition validate (fs : FileSystem) (now : datetime) (filename : Path)
    (result : CompletedProcess) (log : option text) : res (option text) :=
  let* size := st_size fs filename in
  let filesize := true_div_pow2 size 10 in
  let time_utc := strftime now TIME_FORMAT in
  let* c := classify fs filename result log in
  match c with
  | UseTemplate message =>
      let* response := format_response (name filename) filesize time_utc message in
      Ok (Some response)
  | PassThrough => Ok log
  end.

(** [log_is_valid(log)] *)
Definition log_is_valid (log : text) : bool :=
  contains (str "All checks passed!") log.

(** [is_valid(filename)]; a report that is [None] cannot be searched. *)
Definition is_valid (fs : FileSystem) (now : datetime) (filename : Path)
    (result : CompletedProcess) (log : option text) : res bool :=
  let* report := validate fs now filename result log in
  match report with
  | Some r => Ok (log_is_valid r)
  | None => Raise TypeError
  end.

Definition new_extension (filename : Path) : text :=
  if text_eqb (suffix filename) (str ".xlsx") then str ".ags"
  else str ".xlsx".

Definition converted_path (filename results_dir : Path) : Path :=
  joinpath results_dir (stem filename ++ new_extension filename).

(** [convert(filename, results_dir)] from the point where the
    results directory exists and the converter has returned [result];
    [fs] is the file system it left behind.  Returns the path of the
    converted file, the report and the file system after the
    clean-up. *)
Definition convert (fs : FileSystem) (now : datetime) (filename results_dir : Path)
    (result : CompletedProcess) : res (option Path * text * FileSystem) :=
  let converted_file := converted_path filename results_dir in
  let* size := st_size fs filename in
  let filesize := true_div_pow2 size 10 in
  let time_utc := strftime now TIME_FORMAT in
  let '(message, converted, fs') :=
    if negb (returncode result =? 0)%Z then
      (str "ERROR: " ++ stderr result, None, unlink fs converted_file)
    else if startswith (str "ERROR: ") (stdout result) then
      (stdout result, None, unlink fs converted_file)
    else
      (str "SUCCESS: " ++ name filename ++ str " converted to "
         ++ name converted_file,
       Some converted_file, fs) in
  let* log := format_response (name filename) filesize time_utc message in
  Ok (converted, log, fs').

(** ** The clock readings [datetime.now] can give *)

Definition valid_datetime (t : datetime) : Prop :=
  (1000 <= year t <= 9999 /\ 1 <= month t <= 12 /\ 1 <= day t <= 31
   /\ hour t <= 23 /\ minute t <= 59 /\ second t <= 59)%N.

(** [s] is [n] written with exactly [w] decimal digits. *)
Definition fixed_digits (w : nat) (n : N) (s : text) : Prop :=
  length s = w /\ forallb is_digit s = true /\ int s = n.

(** [ts] is [t] written [YYYY-MM-DD HH:MM:SS]. *)
Definition timestamp_of (t : datetime) (ts : text) : Prop :=
  exists Y M D h m s,
    ts = Y ++ str "-" ++ M ++ str "-" ++ D ++ str " "
         ++ h ++ str ":" ++ m ++ str ":" ++ s
    /\ fixed_digits 4 (year t) Y /\ fixed_digits 2 (month t) M
    /\ fixed_digits 2 (day t) D /\ fixed_digits 2 (hour t) h
    /\ fixed_digits 2 (minute t) m /\ fixed_digits 2 (second t) s.

(** ** Predicates used in the statements *)

(** No byte of the file is a carriage return. *)
Definition no_carriage_return (b : list Byte.byte) : bool :=
  forallb (fun c => negb (Ascii.eqb c CR)) (decode_latin1 b).

(** The log starts with [<digits> error(s) found in file]. *)
Definition starts_with_error_count (l : text) : Prop :=
  exists d rest,
    l = d ++ str " error(s) found in file" ++ rest
    /\ d <> [] /\ forallb is_digit d = true.

(** ** The specification's wording, for comparison *)

Module Spec.

(** The text after the last newline of [t]. *)
Definition after_last_newline (t : text) : text :=
  rev (takewhile not_LF (rev t)).

(** The locator as the specification words it: decode the first
    [byte_offset] bytes one by one, count the newlines, keep the
    text after the last one, and decode the next byte. *)
Definition locate (bytes : list Byte.byte) (byte_offset : nat)
    : nat * nat * text * text :=
  let read := decode_latin1 (take byte_offset bytes) in
  let line_number := (count LF read + 1)%nat in
  let line_prefix_text := after_last_newline read in
  let character_offset_in_line := (length line_prefix_text + 1)%nat in
  let offending_character :=
    decode_latin1 (take 1 (drop byte_offset bytes)) in
  (character_offset_in_line, line_number, line_prefix_text,
   offending_character).

(** The column as the specification's testable property words it:
    the offset less the number of newline bytes before it. *)
Definition column (bytes : list Byte.byte) (k : nat) : nat :=
  k - count LF (decode_latin1 (take k bytes)).

(** [k] is a whole number nearest to [n / 1024]. *)
Definition nearest_kB (n k : N) : Prop :=
  forall j : N, (Z.abs (1024 * Z.of_N k - Z.of_N n)
                 <= Z.abs (1024 * Z.of_N j - Z.of_N n))%Z.

(** The report of section 6: three header lines, a blank line and
    the message; [kB] and [time] are the texts of the two rendered
    fields. *)
Definition report (filename kB time message : text) : text :=
  str "File Name: " ++ [TAB] ++ str " " ++ filename ++ [LF]
  ++ str "File Size: " ++ [TAB] ++ str " " ++ kB ++ str " kB" ++ [LF]
  ++ str "Time (UTC): " ++ [TAB] ++ str " " ++ time ++ [LF]
  ++ [LF]
  ++ message.

(** A substring [in position <digits>:]. *)
Definition has_position (s : text) : Prop :=
  exists pre d post,
    s = pre ++ str "in position " ++ d ++ str ":" ++ post
    /\ d <> [] /\ forallb is_digit d = true.

(** Section 8 as worded: the column of the message is the offset
    less the newlines before it. *)
Definition column_reported (fs : FileSystem) (filename : Path)
    (bytes : list Byte.byte) (k : N) : Prop :=
  exists line_no line char,
    line_of_error fs filename k
    = Ok (column bytes (N.to_nat k), line_no, line, char).

Definition ERROR_PREFIX : text := str "ERROR: ".
Definition DECODE_MARKER : text := str "UnicodeDecodeError:".
Definition PASSED : text := str "All checks passed!".

(** Section 4.3 as worded, for one outcome: the four branches in
    their order, the last one taken whenever the first three are
    not. *)
Definition precedence (fs : FileSystem) (now : datetime) (filename : Path)
    (result : CompletedProcess) (log : option text) : Prop :=
  (returncode result <> 0%Z ->
   exists m, classify fs filename result log = Ok (UseTemplate m))
  /\ (returncode result = 0%Z ->
      startswith ERROR_PREFIX (stdout result) = true ->
      classify fs filename result log = Ok (UseTemplate (stdout result)))
  /\ (returncode result = 0%Z ->
      startswith ERROR_PREFIX (stdout result) = false ->
      forall l, log = Some l -> starts_with_error_count l ->
      classify fs filename result log = Ok (UseTemplate l))
  /\ (returncode result = 0%Z ->
      startswith ERROR_PREFIX (stdout result) = false ->
      ~ (exists l, log = Some l /\ starts_with_error_count l) ->
      classify fs filename result log = Ok PassThrough
      /\ validate fs now filename result log = Ok log).

(** Section 7 as worded: the run ends in a string report. *)
Definition ends_in_report (fs : FileSystem) (now : datetime)
    (filename : Path) (result : CompletedProcess) (log : option text)
    : Prop :=
  exists report, validate fs now filename result log = Ok (Some report).

(** Section 4.3, branch 1 as worded: whenever the marker is in
    stderr an offset is found and the message built from it. *)
Definition decoding_failure_message (fs : FileSystem) (filename : Path)
    (result : CompletedProcess) (log : option text) : Prop :=
  returncode result <> 0%Z ->
  contains DECODE_MARKER (stderr result) = true ->
  exists d col line_no line char,
    Re.search IN_POSITION (stderr result) = Some (Some d)
    /\ line_of_error fs filename (int d) = Ok (col, line_no, line, char)
    /\ classify fs filename result log
       = Ok (UseTemplate (unicode_message col line_no line char)).

(** Section 8 as worded: a successful run whose log holds
    [All checks passed!] is passed through and is valid. *)
Definition passed_log_returned (fs : FileSystem) (now : datetime)
    (filename : Path) (result : CompletedProcess) (log : option text)
    : Prop :=
  returncode result = 0%Z ->
  startswith ERROR_PREFIX (stdout result) = false ->
  forall l, log = Some l -> contains PASSED l = true ->
  classify fs filename result log = Ok PassThrough
  /\ validate fs now filename result log = Ok (Some l)
  /\ log_is_valid l = true.

End Spec.

(** ** Sample inputs *)

Definition example1_ags : Path := [str "files"; str "example1.ags"].
Definition example1_xlsx : Path := [str "files"; str "example1.xlsx"].
Definition results : Path := [str "results"].

(** A first line ended by carriage return and line feed, then a byte
    that is not valid UTF-8, at offset 7. *)
Definition crlf_bytes : list Byte.byte :=
  map byte_of_ascii (str "GROUP" ++ [CR; LF] ++ ["156"%char; "x"%char]).

Definition lf_bytes : list Byte.byte :=
  map byte_of_ascii (str "GROUP" ++ [LF] ++ ["156"%char; "x"%char]).

Definition crlf_fs : FileSystem := {[ example1_ags := crlf_bytes ]}.
Definition lf_fs : FileSystem := {[ example1_ags := lf_bytes ]}.
Definition xlsx_fs : FileSystem :=
  {[ example1_xlsx := lf_bytes; results ++ [str "example1.ags"] := [] ]}.

(** A file size past 2 ^ 53 bytes, where doubles are two apart. *)
Definition huge_size : N := (2 ^ 53 + 1535)%N.

Definition noon : datetime := Datetime 2021 8 18 12 0 0.
Definition later : datetime := Datetime 2021 8 18 12 0 1.

Definition passed_log : text :=
  str "File Name: example1.ags" ++ [LF] ++ str "All checks passed!".

Definition error_count_log : text := str "2 error(s) found in file!".

Definition count_then_passed : text :=
  str "1 error(s) found in file!" ++ [LF] ++ str "All checks passed!".

Definition wrong_extension : text :=
  str "ERROR: Only .ags files are accepted as input".

Definition bad_byte_at_6 : text :=
  str "UnicodeDecodeError: 'utf-8' codec can't decode byte 0x9c in position 6: invalid start byte".

Definition bad_byte_at_7 : text :=
  str "UnicodeDecodeError: 'utf-8' codec can't decode byte 0x9c in position 7: invalid start byte".

Definition bad_byte_range : text :=
  str "UnicodeDecodeError: 'utf-8' codec can't decode bytes in position 0-1: invalid continuation byte".


(** ** What a pattern matches, declaratively *)

Module ReSem.

(** The words one item can take. *)
Definition item_word (it : Re.item) (w : text) : Prop :=
  match Re.it_quant it with
  | Re.Once => exists c, w = [c] /\ Re.accepts (Re.it_cls it) c = true
  | Re.Star => forallb (Re.accepts (Re.it_cls it)) w = true
  | Re.Plus => w <> [] /\ forallb (Re.accepts (Re.it_cls it)) w = true
  end.

(** [denote p w g g']: [w] splits into one word per item of [p], and
    the group goes from [g] to [g']. *)
Fixpoint denote (p : Re.pattern) (w : text) (g g' : option text) : Prop :=
  match p with
  | [] => w = [] /\ g' = g
  | it :: p' =>
      exists w1 w2,
        w = w1 ++ w2 /\ item_word it w1
        /\ denote p' w2 (Re.capture it w1 g) g'
  end.

End ReSem.

(** ** More sample inputs *)

(** What the checker prints when it dies of a decoding failure. *)
Definition traceback : text :=
  str "Traceback (most recent call last):" ++ [LF]
  ++ str "  File " ++ [DQUOTE] ++ str "codecs.py" ++ [DQUOTE]
  ++ str ", line 322, in decode" ++ [LF]
  ++ str "UnicodeDecodeError: 'utf-8' codec can't decode byte 0x9c in position 6: invalid start byte"
  ++ [LF].

Definition passed_in_stderr : text :=
  str "Checked 0 rules. All checks passed! Then the process was killed.".

(** A file whose name quotes the phrase. *)
Definition passed_in_name : Path :=
  [str "files"; str "All checks passed!.ags"].

Definition passed_in_name_fs : FileSystem := {[ passed_in_name := lf_bytes ]}.

(** ** Files with carriage returns *)




(** ** The position pattern after its leading [.*] *)

Definition POSITION_TAIL : Re.pattern :=
  Re.lit "in position "
    ++ Re.Item Re.Digit Re.Plus true :: Re.lit ":"
    ++ [Re.Item Re.Dot Re.Star false].

(** ** Positions the locator can read *)




(** * Properties *)

(** ** Text *)

Lemma ascii_eqb_true (a b : ascii) : Ascii.eqb a b = true <-> a = b.
Proof. apply Ascii.eqb_eq. Qed.

Lemma text_eqb_eq (a b : text) : text_eqb a b = true <-> a = b.
Proof.
  revert b. induction a as [|x a IH]; intros [|y b]; simpl;
    try (split; [discriminate | discriminate]); [tauto|].
  destruct (Ascii.eqb x y) eqn:E.
  - apply Ascii.eqb_eq in E. subst y. rewrite IH.
    split; [now intros -> | now intros [= ->]].
  - apply Ascii.eqb_neq in E. split; [discriminate | intros [= ? ?]; congruence].
Qed.

Lemma startswith_spec (p s : text) :
  startswith p s = true <-> exists r, s = p ++ r.
Proof.
  revert s. induction p as [|a p IH]; intros s; simpl.
  - split; [exists s; reflexivity | reflexivity].
  - destruct s as [|b s].
    + split; [discriminate | intros [r Hr]; discriminate].
    + destruct (Ascii.eqb a b) eqn:E.
      * apply Ascii.eqb_eq in E. subst b. rewrite IH.
        split; intros [r Hr]; exists r; [now rewrite Hr | now inversion Hr].
      * apply Ascii.eqb_neq in E.
        split; [discriminate | intros [r Hr]; inversion Hr; congruence].
Qed.

Lemma startswith_app (p r : text) : startswith p (p ++ r) = true.
Proof. apply startswith_spec. now exists r. Qed.

Lemma contains_spec (p s : text) :
  contains p s = true <-> exists pre post, s = pre ++ p ++ post.
Proof.
  induction s as [|a s IH].
  - simpl. destruct (startswith p []) eqn:E.
    + apply startswith_spec in E as [r Hr]. split; [|reflexivity].
      intros _. exists [], r. exact Hr.
    + split; [discriminate|]. intros (pre & post & H).
      destruct pre; [|discriminate]. simpl in H.
      rewrite H, startswith_app in E. discriminate.
  - simpl. destruct (startswith p (a :: s)) eqn:E.
    + apply startswith_spec in E as [r Hr]. split; [|reflexivity].
      intros _. exists [], r. exact Hr.
    + rewrite IH. split.
      * intros (pre & post & H). exists (a :: pre), post. now rewrite H.
      * intros (pre & post & H). destruct pre as [|b pre].
        -- simpl in H. rewrite H, startswith_app in E. discriminate.
        -- inversion H. now exists pre, post.
Qed.

Lemma contains_app_r (p a s : text) :
  contains p s = true -> contains p (a ++ s) = true.
Proof.
  rewrite !contains_spec. intros (pre & post & ->).
  exists (a ++ pre), post. now rewrite <- app_assoc.
Qed.

(** ** The matcher against the declarative reading *)

Lemma greedy_some {A} (f : nat -> option A) lo d r :
  Re.greedy f lo d = Some r ->
  exists n, (lo <= n <= lo + d)%nat /\ f n = Some r.
Proof.
  induction d as [|d IH]; simpl.
  - destruct (f (lo + 0)%nat) eqn:E; [|discriminate].
    intros [= <-]. exists (lo + 0)%nat. split; [lia | exact E].
  - destruct (f (lo + S d)%nat) eqn:E.
    + intros [= <-]. exists (lo + S d)%nat. split; [lia | exact E].
    + intros H. destruct (IH H) as (n & Hn & Hf). exists n. split; [lia | exact Hf].
Qed.

Lemma greedy_complete {A} (f : nat -> option A) lo d n :
  (lo <= n <= lo + d)%nat -> is_Some (f n) -> is_Some (Re.greedy f lo d).
Proof.
  induction d as [|d IH]; simpl; intros Hn Hf.
  - replace (lo + 0)%nat with n by lia. destruct (f n); [eauto | exact Hf].
  - destruct (f (lo + S d)%nat) eqn:E; [eauto|].
    apply IH; [|exact Hf].
    destruct (decide (n = lo + S d)%nat) as [->|]; [|lia].
    rewrite E in Hf. destruct Hf as [? [=]].
Qed.

Lemma span_take (k : Re.cls) (s : text) (n : nat) :
  (n <= Re.span k s)%nat -> forallb (Re.accepts k) (take n s) = true.
Proof.
  revert n. induction s as [|c s IH]; intros n Hn; simpl in *.
  - now destruct n.
  - destruct n as [|n]; [reflexivity|]. simpl.
    destruct (Re.accepts k c); [|lia]. simpl. apply IH. lia.
Qed.

Lemma span_app (k : Re.cls) (w rest : text) :
  forallb (Re.accepts k) w = true -> (length w <= Re.span k (w ++ rest))%nat.
Proof.
  induction w as [|c w IH]; simpl; [lia|].
  intros H. apply andb_prop in H as [Hc Hw]. rewrite Hc.
  specialize (IH Hw). lia.
Qed.

Lemma repeat_from_some {A} lo k s (f : nat -> option A) r :
  Re.repeat_from lo k s f = Some r ->
  exists n, (lo <= n)%nat /\ forallb (Re.accepts k) (take n s) = true
            /\ (n <= length s)%nat /\ f n = Some r.
Proof.
  unfold Re.repeat_from. destruct (lo <=? Re.span k s)%nat eqn:E; [|discriminate].
  apply Nat.leb_le in E. intros H.
  apply greedy_some in H as (n & Hn & Hf). exists n.
  assert (Re.span k s <= length s)%nat.
  { clear. induction s as [|c s IH]; simpl; [lia|].
    destruct (Re.accepts k c); lia. }
  repeat split; [lia | apply span_take; lia | lia | exact Hf].
Qed.

Lemma repeat_from_complete {A} lo k w rest (f : nat -> option A) :
  (lo <= length w)%nat -> forallb (Re.accepts k) w = true ->
  is_Some (f (length w)) -> is_Some (Re.repeat_from lo k (w ++ rest) f).
Proof.
  intros Hlo Hw Hf. unfold Re.repeat_from.
  pose proof (span_app k w rest Hw) as Hs.
  destruct (lo <=? Re.span k (w ++ rest))%nat eqn:E.
  - apply (greedy_complete f lo _ (length w)); [lia | exact Hf].
  - apply Nat.leb_gt in E. lia.
Qed.

Lemma run_sound (p : Re.pattern) :
  forall s g g', Re.run p s g = Some g' ->
  exists w rest, s = w ++ rest /\ ReSem.denote p w g g'.
Proof.
  induction p as [|it p IH]; intros s g g' H; simpl in H.
  - inversion H. exists [], s. simpl. auto.
  - destruct (Re.it_quant it) eqn:Q.
    + destruct s as [|c s]; [discriminate|].
      destruct (Re.accepts (Re.it_cls it) c) eqn:Hc; [|discriminate].
      apply IH in H as (w & rest & -> & Hd).
      exists (c :: w), rest. split; [reflexivity|].
      simpl. exists [c], w. repeat split; [|exact Hd].
      unfold ReSem.item_word. rewrite Q. eauto.
    + apply repeat_from_some in H as (n & _ & Hall & Hlen & H).
      apply IH in H as (w & rest & Hs & Hd).
      exists (take n s ++ w), rest. split.
      * rewrite <- app_assoc, <- Hs. symmetry. apply take_drop.
      * simpl. exists (take n s), w. repeat split; [|exact Hd].
        unfold ReSem.item_word. now rewrite Q.
    + apply repeat_from_some in H as (n & Hn & Hall & Hlen & H).
      apply IH in H as (w & rest & Hs & Hd).
      exists (take n s ++ w), rest. split.
      * rewrite <- app_assoc, <- Hs. symmetry. apply take_drop.
      * simpl. exists (take n s), w. repeat split; [|exact Hd].
        unfold ReSem.item_word. rewrite Q. split; [|exact Hall].
        intros Hnil. apply (f_equal length) in Hnil.
        rewrite length_take in Hnil. simpl in Hnil. lia.
Qed.

Lemma run_complete (p : Re.pattern) :
  forall w g g', ReSem.denote p w g g' ->
  forall rest g0, is_Some (Re.run p (w ++ rest) g0).
Proof.
  induction p as [|it p IH]; intros w g g' H rest g0; simpl in *.
  - eauto.
  - destruct H as (w1 & w2 & -> & Hit & Hd).
    unfold ReSem.item_word in Hit. rewrite <- app_assoc.
    destruct (Re.it_quant it) eqn:Q.
    + destruct Hit as (c & -> & Hc). simpl. rewrite Hc. eapply IH, Hd.
    + apply repeat_from_complete; [lia | exact Hit |].
      rewrite drop_app_length. eapply IH, Hd.
    + destruct Hit as [Hne Hall].
      apply repeat_from_complete; [|exact Hall|].
      * destruct w1; [congruence | simpl; lia].
      * rewrite drop_app_length. eapply IH, Hd.
Qed.

Lemma search_sound (p : Re.pattern) (s : text) g' :
  Re.search p s = Some g' ->
  exists pre w rest, s = pre ++ w ++ rest /\ ReSem.denote p w None g'.
Proof.
  induction s as [|c s IH]; simpl.
  - destruct (Re.run p [] None) eqn:E; [|discriminate].
    intros [= <-]. apply run_sound in E as (w & rest & Hs & Hd).
    exists [], w, rest. auto.
  - destruct (Re.run p (c :: s) None) eqn:E.
    + intros [= <-]. apply run_sound in E as (w & rest & Hs & Hd).
      exists [], w, rest. auto.
    + intros H. apply IH in H as (pre & w & rest & -> & Hd).
      exists (c :: pre), w, rest. auto.
Qed.

Lemma search_complete (p : Re.pattern) (w : text) g g' :
  ReSem.denote p w g g' ->
  forall pre rest, is_Some (Re.search p (pre ++ w ++ rest)).
Proof.
  intros Hd pre rest. induction pre as [|c pre IH].
  - simpl. destruct (run_complete p w g g' Hd rest None) as [r Hr].
    destruct (w ++ rest); simpl; rewrite Hr; eauto.
  - simpl. destruct (Re.run p (c :: pre ++ w ++ rest) None); [eauto | exact IH].
Qed.

(** ** The two patterns of [ags.py] *)

Lemma denote_lit (t : string) (p : Re.pattern) (w : text) g g' :
  ReSem.denote (Re.lit t ++ p) w g g' <->
  exists w', w = str t ++ w' /\ ReSem.denote p w' g g'.
Proof.
  unfold Re.lit. generalize (str t) as cs. intros cs. revert w.
  induction cs as [|c cs IH]; intros w.
  - simpl. split; [eauto | now intros (w' & -> & H)].
  - change (ReSem.denote
              (Re.Item (Re.Chr c) Re.Once false
                 :: (map (fun c => Re.Item (Re.Chr c) Re.Once false) cs ++ p))
              w g g' <->
            exists w', w = (c :: cs) ++ w' /\ ReSem.denote p w' g g').
    split.
    + intros (w1 & w2 & -> & (c' & -> & Hc) & H).
      apply Ascii.eqb_eq in Hc. subst c'.
      apply IH in H as (w' & -> & H). eauto.
    + intros (w' & -> & H). exists [c], (cs ++ w').
      split; [reflexivity|]. split.
      * exists c. split; [reflexivity | apply Ascii.eqb_refl].
      * apply IH. eauto.
Qed.

Lemma in_position_denote_iff (w : text) (g : option text) :
  ReSem.denote IN_POSITION w None g <->
  exists a d b,
    w = a ++ str "in position " ++ d ++ str ":" ++ b
    /\ g = Some d /\ d <> [] /\ forallb is_digit d = true
    /\ forallb (Re.accepts Re.Dot) a = true
    /\ forallb (Re.accepts Re.Dot) b = true.
Proof.
  unfold IN_POSITION. split.
  - intros (a & w2 & -> & Ha & H).
    apply denote_lit in H as (w3 & -> & H).
    destruct H as (d & w4 & -> & [Hne Hd] & H).
    apply denote_lit in H as (w5 & -> & H).
    destruct H as (b & w6 & -> & Hb & [-> ->]).
    exists a, d, b. rewrite app_nil_r. auto 10.
  - intros (a & d & b & -> & -> & Hne & Hd & Ha & Hb).
    exists a, (str "in position " ++ d ++ str ":" ++ b).
    split; [reflexivity|]. split; [exact Ha|].
    apply denote_lit. eexists. split; [reflexivity|].
    exists d, (str ":" ++ b). split; [reflexivity|]. split; [split; assumption|].
    apply denote_lit. eexists. split; [reflexivity|].
    exists b, []. rewrite app_nil_r. split; [reflexivity|].
    split; [exact Hb|]. split; reflexivity.
Qed.

Lemma in_position_sound (s : text) (g : option text) :
  Re.search IN_POSITION s = Some g ->
  exists d, g = Some d /\ d <> [] /\ forallb is_digit d = true
            /\ exists pre post,
                 s = pre ++ str "in position " ++ d ++ str ":" ++ post.
Proof.
  intros H. apply search_sound in H as (pre & w & rest & -> & Hd).
  apply in_position_denote_iff in Hd as (a & d & b & -> & -> & Hne & Hdig & _).
  exists d. repeat split; [exact Hne | exact Hdig |].
  exists (pre ++ a), (b ++ rest).
  rewrite <- !app_assoc. reflexivity.
Qed.

Lemma in_position_complete (s : text) :
  Spec.has_position s -> exists d, Re.search IN_POSITION s = Some (Some d).
Proof.
  intros (pre & d & post & -> & Hne & Hdig).
  assert (Hd : ReSem.denote IN_POSITION (str "in position " ++ d ++ str ":")
                 None (Some d)).
  { apply in_position_denote_iff. exists [], d, []. auto 10. }
  destruct (search_complete _ _ _ _ Hd pre post) as [g Hg].
  replace (pre ++ str "in position " ++ d ++ str ":" ++ post)
    with (pre ++ (str "in position " ++ d ++ str ":") ++ post)
    by (now rewrite <- !app_assoc).
  rewrite Hg. apply in_position_sound in Hg as (d' & -> & _). eauto.
Qed.

Lemma errors_found_iff (l : text) :
  is_Some (Re.rmatch ERRORS_FOUND l) <-> starts_with_error_count l.
Proof.
  unfold Re.rmatch, ERRORS_FOUND, starts_with_error_count. split.
  - intros [g H]. apply run_sound in H as (w & rest & -> & H).
    destruct H as (d & w2 & -> & [Hne Hd] & H).
    rewrite <- (app_nil_r (Re.lit _)) in H.
    apply denote_lit in H as (w3 & -> & [-> _]).
    exists d, rest. rewrite app_nil_r, <- !app_assoc. auto.
  - intros (d & rest & -> & Hne & Hd).
    replace (d ++ str " error(s) found in file" ++ rest)
      with ((d ++ str " error(s) found in file") ++ rest)
      by (now rewrite <- app_assoc).
    eapply run_complete with (g := None).
    exists d, (str " error(s) found in file"). split; [reflexivity|].
    split; [split; assumption|].
    rewrite <- (app_nil_r (Re.lit _)). apply denote_lit.
    exists []. rewrite app_nil_r. split; [reflexivity|]. split; reflexivity.
Qed.

(** ** Lines *)

Lemma universal_newlines_id (s : text) :
  forallb (fun c => negb (Ascii.eqb c CR)) s = true ->
  universal_newlines s = s.
Proof.
  induction s as [|c s IH]; simpl; [reflexivity|].
  intros H. apply andb_prop in H as [Hc Hs].
  destruct (Ascii.eqb c CR); [discriminate|]. now rewrite IH.
Qed.

Lemma split_nonempty (c : ascii) (s : text) : split c s <> [].
Proof.
  destruct s as [|a s]; simpl; [discriminate|].
  destruct (Ascii.eqb a c); [discriminate|].
  destruct (split c s); discriminate.
Qed.

Lemma split_app (c : ascii) (a b : text) :
  split c (a ++ c :: b) = split c a ++ split c b.
Proof.
  induction a as [|x a IH]; simpl.
  - now rewrite Ascii.eqb_refl.
  - rewrite IH. destruct (Ascii.eqb x c); [reflexivity|].
    pose proof (split_nonempty c a) as Hne.
    destruct (split c a); [congruence | reflexivity].
Qed.

Lemma split_one_line (line : text) :
  forallb not_LF line = true -> split LF line = [line].
Proof.
  induction line as [|x line IH]; simpl; [reflexivity|].
  intros H. apply andb_prop in H as [Hx Hl]. unfold not_LF in Hx.
  destruct (Ascii.eqb x LF); [discriminate|]. now rewrite IH.
Qed.

Lemma count_one_line (line : text) :
  forallb not_LF line = true -> count LF line = 0%nat.
Proof.
  induction line as [|x line IH]; simpl; [reflexivity|].
  intros H. apply andb_prop in H as [Hx Hl]. unfold not_LF in Hx.
  destruct (Ascii.eqb x LF); [discriminate|]. now rewrite IH.
Qed.

Lemma count_app (c : ascii) (a b : text) :
  count c (a ++ b) = (count c a + count c b)%nat.
Proof. induction a as [|x a IH]; simpl; [reflexivity | rewrite IH; lia]. Qed.


(** Every text is one line, or ends with a newline followed by one
    line. *)
Lemma last_line_cases (t : text) :
  forallb not_LF t = true
  \/ exists a line, t = a ++ LF :: line /\ forallb not_LF line = true.
Proof.
  induction t as [|x t IH]; [left; reflexivity|].
  destruct IH as [Hone | (a & line & -> & Hl)].
  - destruct (Ascii.eqb x LF) eqn:E.
    + apply Ascii.eqb_eq in E. subst x. right. exists [], t. auto.
    + left. simpl. unfold not_LF at 1. now rewrite E.
  - right. exists (x :: a), line. auto.
Qed.

Lemma last_item_split_one (line : text) :
  forallb not_LF line = true -> last_item (split LF line) = line.
Proof. intros H. now rewrite split_one_line. Qed.

Lemma last_item_split_app (a line : text) :
  forallb not_LF line = true ->
  last_item (split LF (a ++ LF :: line)) = line.
Proof.
  intros H. rewrite split_app, (split_one_line line H).
  unfold last_item. now rewrite last_snoc.
Qed.

Lemma takewhile_app (f : ascii -> bool) (a b : text) :
  forallb f a = true -> takewhile f (a ++ b) = a ++ takewhile f b.
Proof.
  induction a as [|x a IH]; simpl; [reflexivity|].
  intros H. apply andb_prop in H as [Hx Ha]. now rewrite Hx, IH.
Qed.

Lemma forallb_rev (f : ascii -> bool) (a : text) :
  forallb f (rev a) = forallb f a.
Proof.
  induction a as [|x a IH]; simpl; [reflexivity|].
  rewrite forallb_app, IH. simpl. rewrite andb_true_r. apply andb_comm.
Qed.

Lemma after_last_newline_one (line : text) :
  forallb not_LF line = true -> Spec.after_last_newline line = line.
Proof.
  intros H. unfold Spec.after_last_newline.
  rewrite <- (app_nil_r (rev line)), takewhile_app.
  - simpl. now rewrite app_nil_r, rev_involutive.
  - now rewrite forallb_rev.
Qed.

Lemma after_last_newline_app (a line : text) :
  forallb not_LF line = true ->
  Spec.after_last_newline (a ++ LF :: line) = line.
Proof.
  intros H. unfold Spec.after_last_newline.
  rewrite rev_app_distr. simpl. rewrite <- app_assoc. simpl.
  rewrite takewhile_app by (now rewrite forallb_rev).
  simpl. now rewrite app_nil_r, rev_involutive.
Qed.

(** [split] and the declarative reading agree on the last line. *)
Lemma last_item_split (t : text) :
  last_item (split LF t) = Spec.after_last_newline t.
Proof.
  destruct (last_line_cases t) as [H | (a & line & -> & H)].
  - now rewrite last_item_split_one, after_last_newline_one.
  - now rewrite last_item_split_app, after_last_newline_app.
Qed.

(** ** The template *)

Lemma RESPONSE_TEMPLATE_text :
  RESPONSE_TEMPLATE =
  str "File Name: " ++ [TAB] ++ str " {filename}" ++ [LF]
  ++ str "File Size: " ++ [TAB] ++ str " {filesize:0.0f} kB" ++ [LF]
  ++ str "Time (UTC): " ++ [TAB] ++ str " {time_utc}" ++ [LF]
  ++ [LF]
  ++ str "{message}".
Proof. vm_compute. reflexivity. Qed.

(** Formatting the template never fails and yields the layout of the
    specification. *)
Lemma format_response_ok (filename : text) (filesize : float)
    (time_utc message : text) :
  format_response filename filesize time_utc message
  = Ok (Spec.report filename (str_of_N (round_half_even filesize))
          time_utc message).
Proof.
  unfold format_response, format. rewrite RESPONSE_TEMPLATE_text.
  cbn -[round_half_even str_of_N].
  rewrite app_nil_r. reflexivity.
Qed.

(** ** Decimal numerals *)

Lemma digit_cases (d : N) :
  (d < 10)%N ->
  d = 0%N \/ d = 1%N \/ d = 2%N \/ d = 3%N \/ d = 4%N
  \/ d = 5%N \/ d = 6%N \/ d = 7%N \/ d = 8%N \/ d = 9%N.
Proof. lia. Qed.

Lemma digit_char_is_digit (d : N) :
  (d < 10)%N -> is_digit (digit_char d) = true.
Proof.
  intros H. destruct (digit_cases d H) as [->|[->|[->|[->|[->|[->|[->|[->|[->| ->]]]]]]]]];
    reflexivity.
Qed.

Lemma digit_value_char (d : N) :
  (d < 10)%N -> digit_value (digit_char d) = d.
Proof.
  intros H. destruct (digit_cases d H) as [->|[->|[->|[->|[->|[->|[->|[->|[->| ->]]]]]]]]];
    reflexivity.
Qed.

Lemma mod10_lt (n : N) : (n mod 10 < 10)%N.
Proof. apply N.mod_lt. discriminate. Qed.

Lemma digits_acc (fuel : nat) :
  forall n acc, digits fuel n acc = digits fuel n [] ++ acc.
Proof.
  induction fuel as [|fuel IH]; intros n acc; cbn [digits]; [reflexivity|].
  destruct (n <? 10)%N; [reflexivity|].
  rewrite (IH _ (_ :: acc)), (IH _ [_]), <- app_assoc. reflexivity.
Qed.

Lemma digits_step (fuel : nat) (n : N) :
  digits (S fuel) n [] =
  if (n <? 10)%N then [digit_char (n mod 10)]
  else digits fuel (n / 10) [] ++ [digit_char (n mod 10)].
Proof. cbn [digits]. destruct (n <? 10)%N; [reflexivity | apply digits_acc]. Qed.

Lemma digits_all_digits (fuel : nat) :
  forall n, forallb is_digit (digits fuel n []) = true.
Proof.
  induction fuel as [|fuel IH]; intros n; [reflexivity|].
  rewrite digits_step. destruct (n <? 10)%N.
  - cbn [forallb]. now rewrite digit_char_is_digit by apply mod10_lt.
  - rewrite forallb_app, IH. cbn [forallb].
    now rewrite digit_char_is_digit by apply mod10_lt.
Qed.

Lemma digits_length (fuel : nat) :
  forall n w, (n < 10 ^ N.of_nat w)%N -> (1 <= w)%nat ->
  (length (digits (S fuel) n []) <= w)%nat.
Proof.
  induction fuel as [|fuel IH]; intros n w Hn Hw.
  - cbn [digits]. destruct (n <? 10)%N; cbn [length]; lia.
  - rewrite digits_step. destruct (n <? 10)%N eqn:E; [cbn [length]; lia|].
    apply N.ltb_ge in E. rewrite length_app. cbn [length].
    destruct w as [|[|w]]; [lia | change (n < 10)%N in Hn; lia |].
    assert (length (digits (S fuel) (n / 10) []) <= S w)%nat; [|lia].
    apply IH; [|lia].
    apply N.Div0.div_lt_upper_bound.
    replace (N.of_nat (S (S w))) with (N.succ (N.of_nat (S w))) in Hn by lia.
    now rewrite N.pow_succ_r' in Hn.
Qed.


Lemma int_snoc (s : text) (c : ascii) :
  int (s ++ [c]) = (10 * int s + digit_value c)%N.
Proof. unfold int. now rewrite fold_left_app. Qed.

Lemma int_digits (fuel : nat) :
  forall n, (n < 10 ^ N.of_nat fuel)%N -> int (digits fuel n []) = n.
Proof.
  induction fuel as [|fuel IH]; intros n Hn.
  - change (n < 1)%N in Hn. assert (n = 0%N) by lia. now subst.
  - rewrite digits_step. destruct (n <? 10)%N eqn:E.
    + apply N.ltb_lt in E. change (int ([] ++ [digit_char (n mod 10)]) = n).
      rewrite int_snoc, digit_value_char by apply mod10_lt.
      change (int []) with 0%N. rewrite N.mod_small by exact E. lia.
    + rewrite int_snoc, digit_value_char by apply mod10_lt.
      rewrite IH.
      * symmetry. apply N.div_mod. discriminate.
      * apply N.Div0.div_lt_upper_bound.
        replace (N.of_nat (S fuel)) with (N.succ (N.of_nat fuel)) in Hn by lia.
        now rewrite N.pow_succ_r' in Hn.
Qed.

Lemma fuel_enough (n : N) : (n < 10 ^ N.of_nat (S (N.to_nat (N.log2 n))))%N.
Proof.
  replace (N.of_nat (S (N.to_nat (N.log2 n)))) with (N.succ (N.log2 n)) by lia.
  destruct (N.eq_dec n 0%N) as [->|Hn]; [reflexivity|].
  apply N.lt_le_trans with (2 ^ N.succ (N.log2 n))%N.
  - apply N.log2_spec. lia.
  - apply N.pow_le_mono_l. lia.
Qed.

(** Printing then reading a number gives it back: the fuel of
    [str_of_N] is enough. *)
Lemma int_str_of_N (n : N) : int (str_of_N n) = n.
Proof. apply int_digits, fuel_enough. Qed.

Lemma str_of_N_digits (n : N) : forallb is_digit (str_of_N n) = true.
Proof. apply digits_all_digits. Qed.


Lemma str_of_N_length (n : N) (w : nat) :
  (n < 10 ^ N.of_nat w)%N -> (1 <= w)%nat -> (length (str_of_N n) <= w)%nat.
Proof. apply digits_length. Qed.

Lemma int_zeros (k : nat) (s : text) : int (repeat "0"%char k ++ s) = int s.
Proof.
  unfold int. rewrite fold_left_app. f_equal.
  induction k as [|k IH]; [reflexivity|]. exact IH.
Qed.

(** A field padded to [w] digits: exactly [w] digits, reading [n]. *)
Lemma zero_pad_spec (w : nat) (n : N) :
  (n < 10 ^ N.of_nat w)%N -> (1 <= w)%nat ->
  length (zero_pad w n) = w
  /\ forallb is_digit (zero_pad w n) = true
  /\ int (zero_pad w n) = n.
Proof.
  intros Hn Hw. unfold zero_pad.
  pose proof (str_of_N_length n w Hn Hw) as Hlen.
  split; [|split].
  - rewrite length_app, repeat_length. lia.
  - rewrite forallb_app, str_of_N_digits, andb_true_r.
    induction (w - length (str_of_N n))%nat; [reflexivity | exact IHn0].
  - rewrite int_zeros. apply int_str_of_N.
Qed.

Lemma zero_pad_fixed (w : nat) (n : N) :
  (n < 10 ^ N.of_nat w)%N -> (1 <= w)%nat -> fixed_digits w n (zero_pad w n).
Proof. apply zero_pad_spec. Qed.

(** ** The timestamp *)

Lemma strftime_fields (t : datetime) :
  strftime t TIME_FORMAT =
  zero_pad 4 (year t) ++ str "-" ++ zero_pad 2 (month t) ++ str "-"
  ++ zero_pad 2 (day t) ++ str " " ++ zero_pad 2 (hour t) ++ str ":"
  ++ zero_pad 2 (minute t) ++ str ":" ++ zero_pad 2 (second t).
Proof.
  unfold TIME_FORMAT. cbn [str list_ascii_of_string strftime].
  cbn [Ascii.eqb Bool.eqb directive]. rewrite app_nil_r. reflexivity.
Qed.

Lemma strftime_timestamp (t : datetime) :
  valid_datetime t -> timestamp_of t (strftime t TIME_FORMAT).
Proof.
  intros (Hy & Hm & Hd & Hh & Hmi & Hs). rewrite strftime_fields.
  exists (zero_pad 4 (year t)), (zero_pad 2 (month t)), (zero_pad 2 (day t)),
    (zero_pad 2 (hour t)), (zero_pad 2 (minute t)), (zero_pad 2 (second t)).
  split; [reflexivity|].
  repeat split; apply zero_pad_spec;
    try (change (10 ^ N.of_nat 4)%N with 10000%N);
    try (change (10 ^ N.of_nat 2)%N with 100%N); lia.
Qed.

(** ** The file size in kilobytes *)

Lemma nearest_double_small (n : N) :
  (n < 2 ^ 53)%N -> nearest_double n = n.
Proof.
  intros Hn. unfold nearest_double.
  assert (H : (N.size n <= 53)%N).
  { destruct (N.eq_dec n 0%N) as [->|Hnz]; [discriminate|].
    rewrite N.size_log2 by exact Hnz.
    apply N.le_succ_l, N.log2_lt_pow2; [lia | exact Hn]. }
  apply N.leb_le in H. now rewrite H.
Qed.

(** Rounding [m / 1024] stays within half a unit of it. *)
Lemma round_half_even_near (m : N) :
  (2 * Z.abs (1024 * Z.of_N (round_half_even (Float m 10)) - Z.of_N m)
   <= 1024)%Z.
Proof.
  unfold round_half_even. cbn [dnum dexp].
  change (N.shiftl 1 10) with 1024%N.
  pose proof (N.div_mod m 1024 ltac:(discriminate)) as Hdm.
  pose proof (N.mod_lt m 1024 ltac:(discriminate)) as Hlt.
  set (q := (m / 1024)%N) in *. set (r := (m mod 1024)%N) in *.
  destruct ((1024 <? 2 * r)%N || ((2 * r =? 1024)%N && N.odd q)) eqn:E.
  - apply orb_prop in E as [E|E].
    + apply N.ltb_lt in E. lia.
    + apply andb_prop in E as [E _]. apply N.eqb_eq in E. lia.
  - apply orb_false_elim in E as [E _]. apply N.ltb_ge in E. lia.
Qed.

Lemma near_is_nearest (m k : N) :
  (2 * Z.abs (1024 * Z.of_N k - Z.of_N m) <= 1024)%Z ->
  forall j : N, (Z.abs (1024 * Z.of_N k - Z.of_N m)
                 <= Z.abs (1024 * Z.of_N j - Z.of_N m))%Z.
Proof. intros H j. lia. Qed.

(** ** The locator *)

Lemma line_of_error_unfold (fs : FileSystem) (filename : Path)
    (bytes : list Byte.byte) (char_no : N) :
  fs !! filename = Some bytes ->
  line_of_error fs filename char_no =
  Ok (let f := universal_newlines (decode_latin1 bytes) in
      let upto := take (N.to_nat char_no) f in
      ((length (last_item (split LF upto)) + 1)%nat, (count LF upto + 1)%nat,
       last_item (split LF upto), take 1 (drop (N.to_nat char_no) f))).
Proof. intros H. unfold line_of_error, open_text. now rewrite H. Qed.

(** On a file without carriage returns the code is the locator of the
    specification. *)
Lemma line_of_error_no_CR (fs : FileSystem) (filename : Path)
    (bytes : list Byte.byte) (char_no : N) :
  fs !! filename = Some bytes ->
  no_carriage_return bytes = true ->
  line_of_error fs filename char_no = Ok (Spec.locate bytes (N.to_nat char_no)).
Proof.
  intros H Hcr. rewrite (line_of_error_unfold _ _ _ _ H).
  unfold no_carriage_return in Hcr. rewrite universal_newlines_id by exact Hcr.
  unfold Spec.locate, decode_latin1. cbn zeta.
  rewrite !firstn_map, !skipn_map, !last_item_split, !firstn_map.
  reflexivity.
Qed.

(** Inside the file the specification's locator reads exactly one
    more character, the byte at the offset. *)
Lemma locate_offending (bytes : list Byte.byte) (k : nat) (b : Byte.byte) :
  bytes !! k = Some b -> (Spec.locate bytes k).2 = [ascii_of_byte b].
Proof.
  intros H. unfold Spec.locate. cbn [snd].
  rewrite <- (take_drop k bytes) in H.
  assert (Hk : length (take k bytes) = k).
  { apply lookup_lt_Some in H. rewrite length_app in H.
    rewrite length_take. rewrite length_take in H.
    destruct (decide (k <= length bytes)%nat); [lia|].
    rewrite length_drop in H. lia. }
  rewrite lookup_app_r, Hk, Nat.sub_diag in H by lia.
  destruct (drop k bytes) as [|x rest]; [discriminate|].
  cbn in H. injection H as ->. reflexivity.
Qed.

(** The text before an offset: whole lines, then the start of the
    line the offset is in. *)
Lemma prefix_lines (t : text) :
  exists pre line,
    t = pre ++ line
    /\ (pre = [] \/ exists pre', pre = pre' ++ [LF])
    /\ forallb not_LF line = true
    /\ Spec.after_last_newline t = line
    /\ count LF t = count LF pre.
Proof.
  destruct (last_line_cases t) as [H | (a & line & -> & H)].
  - exists [], t. rewrite after_last_newline_one by exact H.
    rewrite (count_one_line t H). auto.
  - exists (a ++ [LF]), line. split; [now rewrite <- app_assoc|].
    split; [eauto|]. split; [exact H|].
    split; [now apply after_last_newline_app|].
    change (LF :: line) with ([LF] ++ line).
    rewrite app_assoc, (count_app _ (a ++ [LF]) line), (count_one_line line H).
    lia.
Qed.

Lemma get_unicode_message_found (fs : FileSystem) (stderr : text)
    (filename : Path) (d : text) (loc : nat * nat * text * text) :
  Re.search IN_POSITION stderr = Some (Some d) ->
  line_of_error fs filename (int d) = Ok loc ->
  get_unicode_message fs stderr filename
  = Ok (unicode_message loc.1.1.1 loc.1.1.2 loc.1.2 loc.2).
Proof.
  intros Hs Hl. unfold get_unicode_message. rewrite Hs, Hl.
  destruct loc as [[[c n] l] ch]. reflexivity.
Qed.

(** ** The classifier, branch by branch *)

Section Classifier.

Variables (fs : FileSystem) (now : datetime) (filename : Path).
Variable (result : CompletedProcess).

Lemma classify_nonzero (log : option text) :
  returncode result <> 0%Z ->
  classify fs filename result log =
  if contains Spec.DECODE_MARKER (stderr result) then
    let* message := get_unicode_message fs (stderr result) filename in
    Ok (UseTemplate message)
  else Ok (UseTemplate (Spec.ERROR_PREFIX ++ stderr result)).
Proof.
  intros H. apply Z.eqb_neq in H. unfold classify. now rewrite H.
Qed.

Lemma classify_zero (log : option text) :
  returncode result = 0%Z ->
  classify fs filename result log =
  if startswith Spec.ERROR_PREFIX (stdout result) then
    Ok (UseTemplate (stdout result))
  else match log with
       | None => Raise TypeError
       | Some l => match Re.rmatch ERRORS_FOUND l with
                   | Some _ => Ok (UseTemplate l)
                   | None => Ok PassThrough
                   end
       end.
Proof. intros H. unfold classify. now rewrite H. Qed.

Lemma classify_absent_log (log : option text) :
  returncode result = 0%Z ->
  startswith Spec.ERROR_PREFIX (stdout result) = false ->
  log = None ->
  classify fs filename result log = Raise TypeError.
Proof. intros H0 H1 ->. now rewrite classify_zero, H1. Qed.

Lemma classify_error_count (log : option text) (l : text) :
  returncode result = 0%Z ->
  startswith Spec.ERROR_PREFIX (stdout result) = false ->
  log = Some l -> starts_with_error_count l ->
  classify fs filename result log = Ok (UseTemplate l).
Proof.
  intros H0 H1 -> Hl. rewrite classify_zero, H1 by exact H0.
  apply errors_found_iff in Hl as [g Hg]. now rewrite Hg.
Qed.

Lemma classify_pass_through (log : option text) (l : text) :
  returncode result = 0%Z ->
  startswith Spec.ERROR_PREFIX (stdout result) = false ->
  log = Some l -> ~ starts_with_error_count l ->
  classify fs filename result log = Ok PassThrough.
Proof.
  intros H0 H1 -> Hl. rewrite classify_zero, H1 by exact H0.
  destruct (Re.rmatch ERRORS_FOUND l) eqn:E; [|reflexivity].
  exfalso. apply Hl, errors_found_iff. eauto.
Qed.

(** [validate] once the classification is known. *)
Lemma validate_classified (log : option text) (bytes : list Byte.byte)
    (c : classification) :
  fs !! filename = Some bytes ->
  classify fs filename result log = Ok c ->
  validate fs now filename result log =
  match c with
  | UseTemplate message =>
      Ok (Some (Spec.report (name filename)
                  (str_of_N (round_half_even
                     (true_div_pow2 (N.of_nat (length bytes)) 10)))
                  (strftime now TIME_FORMAT) message))
  | PassThrough => Ok log
  end.
Proof.
  intros Hf Hc. unfold validate, st_size. rewrite Hf. cbn [bind].
  rewrite Hc. cbn [bind]. destruct c; [|reflexivity].
  now rewrite format_response_ok.
Qed.

Lemma validate_raises (log : option text) (bytes : list Byte.byte) (e : exn) :
  fs !! filename = Some bytes ->
  classify fs filename result log = Raise e ->
  validate fs now filename result log = Raise e.
Proof.
  intros Hf Hc. unfold validate, st_size. rewrite Hf. cbn [bind].
  now rewrite Hc.
Qed.

Lemma validate_raises_anyway (log : option text) (e : exn) :
  classify fs filename result log = Raise e ->
  raises (validate fs now filename result log).
Proof.
  intros Hc. unfold validate, st_size.
  destruct (fs !! filename); cbn [bind]; [|now exists FileNotFoundError].
  rewrite Hc. now exists e.
Qed.

End Classifier.

(** ** Paths *)

Lemma name_joinpath (d : Path) (s : text) : name (joinpath d s) = s.
Proof. unfold name, joinpath. now rewrite last_snoc. Qed.

Lemma rfind_none (c : ascii) (b : text) :
  forallb (fun x => negb (Ascii.eqb x c)) b = true -> rfind c b = None.
Proof.
  induction b as [|x b IH]; simpl; [reflexivity|].
  intros H. apply andb_prop in H as [Hx Hb]. rewrite (IH Hb).
  now destruct (Ascii.eqb x c).
Qed.

Lemma rfind_last (c : ascii) (a b : text) :
  forallb (fun x => negb (Ascii.eqb x c)) b = true ->
  rfind c (a ++ c :: b) = Some (length a).
Proof.
  intros Hb. induction a as [|x a IH]; simpl.
  - now rewrite (rfind_none c b Hb), Ascii.eqb_refl.
  - now rewrite IH.
Qed.

(** A name [base.ext] with a non-empty base and a non-empty extension
    free of dots has stem [base] and suffix [.ext]. *)
Lemma stem_suffix (p : Path) (base ext : text) :
  base <> [] -> ext <> [] ->
  forallb (fun x => negb (Ascii.eqb x ".")) ext = true ->
  name p = base ++ "."%char :: ext ->
  stem p = base /\ suffix p = "."%char :: ext.
Proof.
  intros Hb He Hdots Hn. unfold stem, suffix, suffix_start.
  rewrite Hn, (rfind_last _ base ext Hdots).
  assert (Hlen : ((0 <? length base)%nat
                  && (length base <? length (base ++ "."%char :: ext) - 1)%nat)
                 = true).
  { rewrite length_app. cbn [length].
    destruct base; [congruence|]. destruct ext; [congruence|].
    apply andb_true_intro. split; [reflexivity|].
    apply Nat.ltb_lt. cbn [length]. lia. }
  rewrite Hlen. split; [apply take_app_length | apply drop_app_length].
Qed.

Lemma name_stem_suffix (p : Path) : name p = stem p ++ suffix p.
Proof.
  unfold stem, suffix. destruct (suffix_start (name p)) as [i|].
  - symmetry. apply take_drop.
  - now rewrite app_nil_r.
Qed.

(** The converted file never has the name of the input, so the
    clean-up cannot remove the input. *)
Lemma converted_path_fresh (filename results_dir : Path) :
  converted_path filename results_dir <> filename.
Proof.
  intros H. apply (f_equal name) in H.
  unfold converted_path in H.
  rewrite name_joinpath, (name_stem_suffix filename) in H.
  apply app_inv_head in H. unfold new_extension in H.
  destruct (text_eqb (suffix filename) (str ".xlsx")) eqn:E.
  - apply text_eqb_eq in E. rewrite E in H. discriminate.
  - rewrite <- H in E. discriminate.
Qed.

(** ** The value [validate] returns *)

(** Declared [-> str]: whenever [validate] returns, it returns a
    string, though its last branch returns [log]. *)
Lemma validate_returns_str (fs : FileSystem) (now : datetime)
    (filename : Path) (result : CompletedProcess) (log r : option text) :
  validate fs now filename result log = Ok r -> exists report, r = Some report.
Proof.
  unfold validate. destruct (st_size fs filename); [|discriminate].
  cbn [bind]. destruct (classify fs filename result log) as [c|e] eqn:Hc;
    [|discriminate].
  cbn [bind]. destruct c as [m|].
  - rewrite format_response_ok. cbn [bind]. intros [= <-]. eauto.
  - intros [= <-]. unfold classify in Hc.
    destruct (negb (returncode result =? 0)%Z).
    + destruct (contains _ _); [|discriminate].
      destruct (get_unicode_message _ _ _); discriminate.
    + destruct (startswith _ _); [discriminate|].
      destruct log as [l|]; [eauto | discriminate].
Qed.

(** ** The sample inputs *)

Lemma error_count_log_counted : starts_with_error_count error_count_log.
Proof. exists (str "2"), (str "!"). repeat split. discriminate. Qed.

Lemma passed_log_not_counted : ~ starts_with_error_count passed_log.
Proof.
  intros H. apply errors_found_iff in H as [g Hg].
  vm_compute in Hg. discriminate.
Qed.


Lemma bad_byte_range_no_position : ~ Spec.has_position bad_byte_range.
Proof.
  intros H. apply in_position_complete in H as [d Hd].
  vm_compute in Hd. discriminate.
Qed.

Lemma noon_valid : valid_datetime noon.
Proof. unfold valid_datetime, noon. cbn [year month day hour minute second]. lia. Qed.

Lemma later_valid : valid_datetime later.
Proof. unfold valid_datetime, later. cbn [year month day hour minute second]. lia. Qed.

(** ** Positions in range *)







(** * The sentences of the specification *)

(** C1, at two outcomes of a run the chain of branches is left by an
    exception.  With exit code 0, a clean stdout and no log file,
    branches 1 and 2 are passed, branch 3 matches the pattern against
    the absent log and raises [TypeError].  With a non-zero exit code
    and a decoding failure that names a byte range, branch 1 finds no
    position and raises [AttributeError].  In both, no branch binds a
    message or passes the log through, and [validate] raises instead
    of returning. *)
Lemma precedence_not_total :
  classify lf_fs example1_ags (Completed 0 [] []) None = Raise TypeError
  /\ validate lf_fs noon example1_ags (Completed 0 [] []) None
     = Raise TypeError
  /\ classify lf_fs example1_ags (Completed 1 [] bad_byte_range) None
     = Raise AttributeError
  /\ validate lf_fs noon example1_ags (Completed 1 [] bad_byte_range) None
     = Raise AttributeError
  /\ ~ Spec.precedence lf_fs noon example1_ags (Completed 0 [] []) None
  /\ ~ Spec.precedence lf_fs noon example1_ags (Completed 1 [] bad_byte_range)
         None.
Proof.
  do 4 (split; [vm_compute; reflexivity|]).
  split.
  - intros (_ & _ & _ & B4).
    destruct B4 as [B4 _]; [reflexivity | reflexivity | |].
    + intros (l & Hl & _). discriminate.
    + vm_compute in B4. discriminate.
  - intros (B1 & _).
    destruct B1 as [m B1]; [discriminate|].
    vm_compute in B1. discriminate.
Qed.

(** C2, at exit code 0, an empty stdout and no log file: [re.match]
    is called on [None], the call raises [TypeError], and [validate]
    raises with it instead of returning a report. *)
Lemma validate_absent_log :
  validate lf_fs noon example1_ags (Completed 0 [] []) None = Raise TypeError
  /\ ~ Spec.ends_in_report lf_fs noon example1_ags (Completed 0 [] []) None.
Proof.
  split; [vm_compute; reflexivity|]. intros [r H].
  vm_compute in H. discriminate.
Qed.

(** C3, at a file whose first line ends with carriage return and line
    feed: asked for offset 7, where the byte 0x9c sits, the code reads
    seven characters of the newline-translated text, one byte too far,
    and returns column 2, prefix [0x9c] and character [x]; the locator
    of the specification gives column 1, an empty prefix and the
    character 0x9c. *)
Lemma line_of_error_crlf :
  crlf_fs !! example1_ags = Some crlf_bytes
  /\ line_of_error crlf_fs example1_ags 7
     = Ok (2%nat, 2%nat, ["156"%char], ["x"%char])
  /\ Spec.locate crlf_bytes 7 = (1%nat, 2%nat, [], ["156"%char])
  /\ line_of_error crlf_fs example1_ags 7 <> Ok (Spec.locate crlf_bytes 7).
Proof.
  split; [reflexivity|]. split; [vm_compute; reflexivity|].
  split; [vm_compute; reflexivity|].
  intros H. vm_compute in H. discriminate.
Qed.

(** C4: a conversion run with a non-zero exit code reports
    [ERROR: ] followed by stderr, deletes the converted file and
    returns no path; otherwise a stdout starting with [ERROR: ] is
    reported, with the same deletion and no path; otherwise the
    report is [SUCCESS: <input name> converted to <output name>], the
    path returned is the results directory joined with the input stem
    and the opposite extension, and the file system is left as it
    was.  In the three branches the message goes through the template.
    After the deletion the converted file is absent and every other
    file, the input among them, is untouched. *)
Theorem convert_branches (fs : FileSystem) (now : datetime)
    (filename results_dir : Path) (result : CompletedProcess)
    (bytes : list Byte.byte) :
  fs !! filename = Some bytes ->
  let out := results_dir ++ [stem filename ++ new_extension filename] in
  let report := Spec.report (name filename)
                  (str_of_N (round_half_even
                     (true_div_pow2 (N.of_nat (length bytes)) 10)))
                  (strftime now TIME_FORMAT) in
  (returncode result <> 0%Z ->
   convert fs now filename results_dir result
   = Ok (None, report (Spec.ERROR_PREFIX ++ stderr result), delete out fs))
  /\ (returncode result = 0%Z ->
      startswith Spec.ERROR_PREFIX (stdout result) = true ->
      convert fs now filename results_dir result
      = Ok (None, report (stdout result), delete out fs))
  /\ (returncode result = 0%Z ->
      startswith Spec.ERROR_PREFIX (stdout result) = false ->
      convert fs now filename results_dir result
      = Ok (Some out,
            report (str "SUCCESS: " ++ name filename ++ str " converted to "
                    ++ stem filename ++ new_extension filename),
            fs))
  /\ (delete out fs !! out = None
      /\ delete out fs !! filename = Some bytes
      /\ forall p, p <> out -> delete out fs !! p = fs !! p)
  /\ (forall base, base <> [] ->
        (name filename = base ++ str ".ags" ->
         out = results_dir ++ [base ++ str ".xlsx"])
        /\ (name filename = base ++ str ".xlsx" ->
            out = results_dir ++ [base ++ str ".ags"])).
Proof.
  intros Hf out report.
  assert (Hconv : converted_path filename results_dir = out) by reflexivity.
  assert (Hname : name out = stem filename ++ new_extension filename)
    by apply name_joinpath.
  split; [|split; [|split; [|split]]].
  - intros Hrc. apply Z.eqb_neq in Hrc.
    unfold convert, st_size. rewrite Hf, Hconv, Hrc. cbn [bind negb].
    now rewrite format_response_ok.
  - intros Hrc Hout. unfold Spec.ERROR_PREFIX in Hout.
    unfold convert, st_size. rewrite Hf, Hconv, Hrc, Hout. cbn [bind negb Z.eqb].
    now rewrite format_response_ok.
  - intros Hrc Hout. unfold Spec.ERROR_PREFIX in Hout.
    unfold convert, st_size. rewrite Hf, Hconv, Hrc, Hout. cbn [bind negb Z.eqb].
    now rewrite format_response_ok, Hname.
  - split; [apply lookup_delete_eq|]. split.
    + rewrite lookup_delete_ne; [exact Hf|].
      rewrite <- Hconv. apply converted_path_fresh.
    + intros p Hp. now apply lookup_delete_ne.
  - intros base Hb. unfold out, new_extension. split; intros Hn.
    + destruct (stem_suffix filename base (str "ags") Hb) as [-> ->];
        [discriminate | reflexivity | exact Hn | reflexivity].
    + destruct (stem_suffix filename base (str "xlsx") Hb) as [-> ->];
        [discriminate | reflexivity | exact Hn | reflexivity].
Qed.

(** A failed conversion of [example1.xlsx]. *)
Lemma convert_branches_witness :
  convert xlsx_fs noon example1_xlsx results (Completed 1 [] bad_byte_range)
  = Ok (None,
        Spec.report (name example1_xlsx)
          (str_of_N (round_half_even
             (true_div_pow2 (N.of_nat (length lf_bytes)) 10)))
          (strftime noon TIME_FORMAT) (Spec.ERROR_PREFIX ++ bad_byte_range),
        delete (results ++ [stem example1_xlsx ++ new_extension example1_xlsx])
          xlsx_fs).
Proof.
  refine (proj1 (convert_branches xlsx_fs noon example1_xlsx results
                   (Completed 1 [] bad_byte_range) lf_bytes _) _).
  - vm_compute. reflexivity.
  - discriminate.
Defined.

(** C5, at a decoding failure that names a byte range: stderr holds
    the marker and [in position 0-1:], the search for
    [in position <digits>:] finds nothing, [m.group(1)] on the failed
    search raises [AttributeError], and the classifier and [validate]
    raise with it: no offset is located and no message is built. *)
Lemma decoding_failure_without_position :
  contains Spec.DECODE_MARKER bad_byte_range = true
  /\ Re.search IN_POSITION bad_byte_range = None
  /\ get_unicode_message lf_fs bad_byte_range example1_ags
     = Raise AttributeError
  /\ classify lf_fs example1_ags (Completed 1 [] bad_byte_range) None
     = Raise AttributeError
  /\ validate lf_fs noon example1_ags (Completed 1 [] bad_byte_range) None
     = Raise AttributeError
  /\ ~ Spec.decoding_failure_message lf_fs example1_ags
        (Completed 1 [] bad_byte_range) None.
Proof.
  do 5 (split; [vm_compute; reflexivity|]).
  intros H. destruct H as (d & c & n & l & ch & Hs & _);
    [discriminate | vm_compute; reflexivity |].
  vm_compute in Hs. discriminate.
Qed.

(** C6 fails as worded: at offset 6, after one newline, the code
    reports column 1 where the sentence gives 6 - 1 = 5; at offset 0 it
    reports column 1 where the sentence gives 0. *)
Lemma column_not_offset_less_newlines :
  Re.search IN_POSITION bad_byte_at_6 = Some (Some (str "6"))
  /\ line_of_error lf_fs example1_ags (int (str "6"))
     = Ok (1%nat, 2%nat, [], ["156"%char])
  /\ ~ Spec.column_reported lf_fs example1_ags lf_bytes (int (str "6"))
  /\ ~ Spec.column_reported lf_fs example1_ags lf_bytes (int (str "0")).
Proof.
  split; [vm_compute; reflexivity|]. split; [vm_compute; reflexivity|].
  split; intros (n & l & c & H); vm_compute in H; discriminate.
Qed.

(** C6, amended: with a non-zero exit code, the decoding marker and a
    position [K] found in stderr, on a file without carriage returns
    and for [K] inside it, the column of the message is [K] less the
    offset at which the line of byte [K] starts, plus 1; the line
    number is one more than the newlines before; and the locator's
    answer depends on the bytes of the file and the offset only. *)
Theorem reported_column (fs : FileSystem) (filename : Path)
    (bytes : list Byte.byte) (result : CompletedProcess) (log : option text)
    (d : text) :
  fs !! filename = Some bytes ->
  no_carriage_return bytes = true ->
  returncode result <> 0%Z ->
  contains Spec.DECODE_MARKER (stderr result) = true ->
  Re.search IN_POSITION (stderr result) = Some (Some d) ->
  (N.to_nat (int d) <= length bytes)%nat ->
  (exists pre line char,
     decode_latin1 (take (N.to_nat (int d)) bytes) = pre ++ line
     /\ (pre = [] \/ exists pre', pre = pre' ++ [LF])
     /\ forallb not_LF line = true
     /\ classify fs filename result log
        = Ok (UseTemplate
                (unicode_message (N.to_nat (int d) - length pre + 1)
                   (count LF pre + 1) line char)))
  /\ (forall fs' filename',
        fs' !! filename' = Some bytes ->
        line_of_error fs' filename' (int d) = line_of_error fs filename (int d)).
Proof.
  intros Hf Hcr Hrc Hmark Hs Hk. split.
  - pose proof (line_of_error_no_CR fs filename bytes (int d) Hf Hcr) as Hl.
    rewrite classify_nonzero, Hmark by exact Hrc.
    rewrite (get_unicode_message_found _ _ _ _ _ Hs Hl).
    unfold Spec.locate. cbn [fst snd bind].
    destruct (prefix_lines (decode_latin1 (take (N.to_nat (int d)) bytes)))
      as (pre & line & Ht & Hpre & Hline & Hafter & Hcount).
    exists pre, line, (decode_latin1 (take 1 (drop (N.to_nat (int d)) bytes))).
    split; [exact Ht|]. split; [exact Hpre|]. split; [exact Hline|].
    rewrite Hafter, Hcount. do 4 f_equal.
    apply (f_equal length) in Ht. unfold decode_latin1 in Ht.
    rewrite length_map, length_take, length_app in Ht. lia.
  - intros fs' filename' Hf'.
    now rewrite (line_of_error_unfold _ _ _ _ Hf), (line_of_error_unfold _ _ _ _ Hf').
Qed.

(** A failure at offset 6 of the sample file. *)
Lemma reported_column_witness :
  exists pre line char,
    decode_latin1 (take 6 lf_bytes) = pre ++ line
    /\ (pre = [] \/ exists pre', pre = pre' ++ [LF])
    /\ forallb not_LF line = true
    /\ classify lf_fs example1_ags (Completed 1 [] bad_byte_at_6) None
       = Ok (UseTemplate
               (unicode_message (6 - length pre + 1) (count LF pre + 1)
                  line char)).
Proof.
  refine (proj1 (reported_column lf_fs example1_ags lf_bytes
                   (Completed 1 [] bad_byte_at_6) None (str "6")
                   _ _ _ _ _ _)).
  - reflexivity.
  - reflexivity.
  - discriminate.
  - vm_compute. reflexivity.
  - vm_compute. reflexivity.
  - vm_compute. lia.
Defined.

(** C7 fails as worded for a log that starts with an error count and
    also holds [All checks passed!]: branch 3 comes first, the
    template is used and the report is not the raw log. *)
Lemma counted_log_not_passed_through :
  ~ Spec.passed_log_returned lf_fs noon example1_ags (Completed 0 [] [])
      (Some count_then_passed).
Proof.
  intros H.
  destruct (H eq_refl eq_refl count_then_passed eq_refl) as (Hc & _).
  - vm_compute. reflexivity.
  - vm_compute in Hc. discriminate.
Qed.

(** C7, amended: for a run with exit code 0, a stdout that does not
    start with [ERROR: ] and a log holding [All checks passed!], the
    returned report is valid; when moreover the log does not start
    with an error count, the template is not used and the report is
    the log unchanged.  [log_is_valid] holds of a text exactly when it
    has the substring [All checks passed!]. *)
Theorem passed_log_valid (fs : FileSystem) (now : datetime) (filename : Path)
    (result : CompletedProcess) (l : text) (bytes : list Byte.byte) :
  fs !! filename = Some bytes ->
  returncode result = 0%Z ->
  startswith Spec.ERROR_PREFIX (stdout result) = false ->
  contains Spec.PASSED l = true ->
  (exists report,
     validate fs now filename result (Some l) = Ok (Some report)
     /\ log_is_valid report = true)
  /\ (~ starts_with_error_count l ->
      classify fs filename result (Some l) = Ok PassThrough
      /\ use_template PassThrough = false
      /\ validate fs now filename result (Some l) = Ok (Some l)
      /\ log_is_valid l = true)
  /\ (forall r, log_is_valid r = true <->
                exists pre post, r = pre ++ Spec.PASSED ++ post).
Proof.
  intros Hf Hrc Hout Hpassed.
  assert (Hpass : ~ starts_with_error_count l ->
            classify fs filename result (Some l) = Ok PassThrough
            /\ validate fs now filename result (Some l) = Ok (Some l)).
  { intros Hn.
    assert (Hc : classify fs filename result (Some l) = Ok PassThrough)
      by (now apply (classify_pass_through _ _ _ _ l)).
    split; [exact Hc|].
    now rewrite (validate_classified _ now _ _ _ bytes _ Hf Hc). }
  split; [|split].
  - destruct (Re.rmatch ERRORS_FOUND l) as [g|] eqn:E.
    + assert (Hc : classify fs filename result (Some l) = Ok (UseTemplate l)).
      { apply (classify_error_count _ _ _ _ l); try assumption; [reflexivity|].
        apply errors_found_iff. eauto. }
      rewrite (validate_classified _ now _ _ _ bytes _ Hf Hc).
      eexists. split; [reflexivity|].
      unfold log_is_valid, Spec.report. repeat apply contains_app_r.
      exact Hpassed.
    + destruct Hpass as [_ Hv].
      * intros Hn. apply errors_found_iff in Hn as [g Hg]. congruence.
      * exists l. split; [exact Hv | exact Hpassed].
  - intros Hn. destruct (Hpass Hn) as [Hc Hv]. auto.
  - intros r. apply contains_spec.
Qed.

(** The sample log of a valid file. *)
Lemma passed_log_valid_witness :
  classify lf_fs example1_ags (Completed 0 [] []) (Some passed_log)
  = Ok PassThrough
  /\ use_template PassThrough = false
  /\ validate lf_fs noon example1_ags (Completed 0 [] []) (Some passed_log)
     = Ok (Some passed_log)
  /\ log_is_valid passed_log = true.
Proof.
  refine (proj1 (proj2 (passed_log_valid lf_fs noon example1_ags
                          (Completed 0 [] []) passed_log lf_bytes _ _ _ _))
            passed_log_not_counted).
  - reflexivity.
  - reflexivity.
  - reflexivity.
  - vm_compute. reflexivity.
Defined.

(** C8 fails as worded past 2 ^ 53 bytes: the size 2 ^ 53 + 1535 is
    first rounded to the double 2 ^ 53 + 1536, its quotient by 1024
    ends in .5 and is shown as 8796093022210, while the whole number
    nearest to the true quotient is 8796093022209. *)
Lemma kilobytes_not_nearest :
  round_half_even (true_div_pow2 huge_size 10) = 8796093022210%N
  /\ ~ Spec.nearest_kB huge_size (round_half_even (true_div_pow2 huge_size 10)).
Proof.
  assert (Hk : round_half_even (true_div_pow2 huge_size 10) = 8796093022210%N)
    by (vm_compute; reflexivity).
  split; [exact Hk|]. rewrite Hk. intros H.
  specialize (H 8796093022209%N). unfold huge_size in H.
  change (2 ^ 53)%N with 9007199254740992%N in H. lia.
Qed.

(** C8, amended: for a file below 2 ^ 53 bytes, a report made from the
    template is the three header lines [File Name:], [File Size:] and
    [Time (UTC):], each followed by a space, a tab and a space, then a
    blank line and the message; the size is a whole number nearest to
    the bytes divided by 1024, written with digits only and followed
    by [ kB]; the time is written
    [YYYY-MM-DD HH:MM:SS].  [validate] returns this report whenever
    the template is used. *)
Theorem template_report_layout (filename : Path) (size : N) (now : datetime)
    (message : text) :
  (size < 2 ^ 53)%N ->
  valid_datetime now ->
  exists k ts,
    Spec.nearest_kB size k
    /\ forallb is_digit (str_of_N k) = true /\ int (str_of_N k) = k
    /\ timestamp_of now ts
    /\ format_response (name filename) (true_div_pow2 size 10)
         (strftime now TIME_FORMAT) message
       = Ok (str "File Name: " ++ [TAB] ++ str " " ++ name filename ++ [LF]
             ++ str "File Size: " ++ [TAB] ++ str " " ++ str_of_N k
             ++ str " kB" ++ [LF]
             ++ str "Time (UTC): " ++ [TAB] ++ str " " ++ ts ++ [LF]
             ++ [LF]
             ++ message)
    /\ (forall fs result log bytes,
          fs !! filename = Some bytes ->
          size = N.of_nat (length bytes) ->
          classify fs filename result log = Ok (UseTemplate message) ->
          validate fs now filename result log
          = Ok (Some (Spec.report (name filename) (str_of_N k) ts message))).
Proof.
  intros Hsize Hnow.
  exists (round_half_even (true_div_pow2 size 10)), (strftime now TIME_FORMAT).
  split; [|split; [|split; [|split; [|split]]]].
  - unfold Spec.nearest_kB. apply near_is_nearest. unfold true_div_pow2.
    rewrite nearest_double_small by exact Hsize. apply round_half_even_near.
  - apply str_of_N_digits.
  - apply int_str_of_N.
  - now apply strftime_timestamp.
  - apply format_response_ok.
  - intros fs result log bytes Hf -> Hc.
    now rewrite (validate_classified _ now _ _ _ bytes _ Hf Hc).
Qed.

(** A file of a kilobyte and a half, at noon. *)
Lemma template_report_layout_witness :
  exists k ts,
    Spec.nearest_kB 1536 k
    /\ forallb is_digit (str_of_N k) = true /\ int (str_of_N k) = k
    /\ timestamp_of noon ts
    /\ format_response (name example1_ags) (true_div_pow2 1536 10)
         (strftime noon TIME_FORMAT) wrong_extension
       = Ok (str "File Name: " ++ [TAB] ++ str " " ++ name example1_ags ++ [LF]
             ++ str "File Size: " ++ [TAB] ++ str " " ++ str_of_N k
             ++ str " kB" ++ [LF]
             ++ str "Time (UTC): " ++ [TAB] ++ str " " ++ ts ++ [LF]
             ++ [LF]
             ++ wrong_extension)
    /\ (forall fs result log bytes,
          fs !! example1_ags = Some bytes ->
          1536%N = N.of_nat (length bytes) ->
          classify fs example1_ags result log = Ok (UseTemplate wrong_extension) ->
          validate fs noon example1_ags result log
          = Ok (Some (Spec.report (name example1_ags) (str_of_N k) ts
                        wrong_extension))).
Proof.
  refine (template_report_layout example1_ags 1536 noon wrong_extension _ _).
  - vm_compute. reflexivity.
  - exact noon_valid.
Defined.

(** C9: for a fixed file name, file size and message, the reports
    formatted at two instants are the same text before the timestamp
    and the same text after it; they differ in the timestamp only,
    which has the same length at both instants. *)
Theorem timestamp_only_difference (filename : text) (filesize : float)
    (message : text) (t1 t2 : datetime) :
  (exists pre post,
     format_response filename filesize (strftime t1 TIME_FORMAT) message
     = Ok (pre ++ strftime t1 TIME_FORMAT ++ post)
     /\ format_response filename filesize (strftime t2 TIME_FORMAT) message
        = Ok (pre ++ strftime t2 TIME_FORMAT ++ post))
  /\ (valid_datetime t1 -> valid_datetime t2 ->
      length (strftime t1 TIME_FORMAT) = 19%nat
      /\ length (strftime t2 TIME_FORMAT) = 19%nat).
Proof.
  split.
  - exists (str "File Name: " ++ [TAB] ++ str " " ++ filename ++ [LF]
            ++ str "File Size: " ++ [TAB] ++ str " "
            ++ str_of_N (round_half_even filesize) ++ str " kB" ++ [LF]
            ++ str "Time (UTC): " ++ [TAB] ++ str " "),
      ([LF] ++ [LF] ++ message).
    rewrite !format_response_ok. unfold Spec.report.
    split; f_equal; rewrite <- !app_assoc; reflexivity.
  - assert (H19 : forall t, valid_datetime t ->
                    length (strftime t TIME_FORMAT) = 19%nat).
    { intros t Ht. destruct (strftime_timestamp t Ht)
        as (Y & M & D & h & m & s0 & -> & (HY & _) & (HM & _) & (HD & _)
            & (Hh & _) & (Hm & _) & (Hs & _)).
      rewrite !length_app, HY, HM, HD, Hh, Hm, Hs. reflexivity. }
    auto.
Qed.

(** Two instants a second apart. *)
Lemma timestamp_only_difference_witness :
  length (strftime noon TIME_FORMAT) = 19%nat
  /\ length (strftime later TIME_FORMAT) = 19%nat.
Proof.
  exact (proj2 (timestamp_only_difference [] (Float 0 10) [] noon later)
           noon_valid later_valid).
Defined.

(** C10: [get_unicode_message] returns a message only when stderr
    holds [in position <digits>:]; with a non-zero exit code and the
    decoding marker but no such substring, the search finds nothing,
    the group access raises [AttributeError], and [validate] raises
    instead of returning a report. *)
Theorem get_unicode_message_needs_position (fs : FileSystem) (now : datetime)
    (filename : Path) (result : CompletedProcess) (log : option text) :
  (forall m, get_unicode_message fs (stderr result) filename = Ok m ->
             Spec.has_position (stderr result))
  /\ (returncode result <> 0%Z ->
      contains Spec.DECODE_MARKER (stderr result) = true ->
      ~ Spec.has_position (stderr result) ->
      Re.search IN_POSITION (stderr result) = None
      /\ get_unicode_message fs (stderr result) filename = Raise AttributeError
      /\ classify fs filename result log = Raise AttributeError
      /\ raises (validate fs now filename result log)
      /\ (forall bytes, fs !! filename = Some bytes ->
            validate fs now filename result log = Raise AttributeError)).
Proof.
  assert (Hfound : forall g, Re.search IN_POSITION (stderr result) = Some g ->
                             Spec.has_position (stderr result)).
  { intros g Hg. apply in_position_sound in Hg
      as (d & _ & Hne & Hd & pre & post & Hs).
    now exists pre, d, post. }
  split.
  - intros m Hm. unfold get_unicode_message in Hm.
    destruct (Re.search IN_POSITION (stderr result)) as [g|] eqn:E;
      [eauto | discriminate].
  - intros Hrc Hmark Hno.
    assert (Hs : Re.search IN_POSITION (stderr result) = None).
    { destruct (Re.search IN_POSITION (stderr result)) as [g|] eqn:E;
        [|reflexivity]. exfalso. eauto. }
    assert (Hg : get_unicode_message fs (stderr result) filename
                 = Raise AttributeError).
    { unfold get_unicode_message. now rewrite Hs. }
    assert (Hc : classify fs filename result log = Raise AttributeError).
    { rewrite classify_nonzero, Hmark, Hg by exact Hrc. reflexivity. }
    repeat split; try assumption.
    + now apply (validate_raises_anyway _ _ _ _ _ AttributeError).
    + intros bytes Hf. now apply (validate_raises _ _ _ _ _ bytes).
Qed.

(** A decoding failure that names a byte range. *)
Lemma get_unicode_message_needs_position_witness :
  validate lf_fs noon example1_ags (Completed 1 [] bad_byte_range) None
  = Raise AttributeError.
Proof.
  refine (proj2 (proj2 (proj2 (proj2 (proj2
            (get_unicode_message_needs_position lf_fs noon example1_ags
               (Completed 1 [] bad_byte_range) None) _ _ _)))) lf_bytes _).
  - discriminate.
  - vm_compute. reflexivity.
  - exact bad_byte_range_no_position.
  - reflexivity.
Defined.

(** * Further properties of the code *)

(** ** When [validate] and [is_valid] raise *)


(** X1: [validate], declared [-> str], never returns [None], though
    its last branch returns [log], which may be [None] when it is
    read. *)
Theorem validate_never_None (fs : FileSystem) (now : datetime)
    (filename : Path) (result : CompletedProcess) (log : option text) :
  validate fs now filename result log <> Ok None.
Proof.
  intros H. apply validate_returns_str in H as [report H]. discriminate.
Qed.



(** X3: [is_valid] raises exactly when [validate] does, with the same
    exception, and otherwise answers [log_is_valid] of the report
    [validate] returns; its own failure on a report that is [None]
    never happens. *)
Theorem is_valid_follows_validate (fs : FileSystem) (now : datetime)
    (filename : Path) (result : CompletedProcess) (log : option text) :
  (forall e, is_valid fs now filename result log = Raise e <->
             validate fs now filename result log = Raise e)
  /\ (forall b, is_valid fs now filename result log = Ok b <->
                exists report,
                  validate fs now filename result log = Ok (Some report)
                  /\ log_is_valid report = b).
Proof.
  unfold is_valid.
  destruct (validate fs now filename result log) as [[r|]|e'] eqn:Hv;
    cbn [bind].
  - split.
    + intros e. split; discriminate.
    + intros b. split.
      * intros [= <-]. eauto.
      * intros (r' & [= <-] & <-). reflexivity.
  - apply validate_returns_str in Hv as [report Hr]. discriminate.
  - split.
    + intros e. split; intros [= ->]; reflexivity.
    + intros b. split; [discriminate | intros (r & H & _); discriminate].
Qed.

(** ** Reports and their validity *)

Lemma contains_app_l (p a b : text) :
  contains p a = true -> contains p (a ++ b) = true.
Proof.
  rewrite !contains_spec. intros (pre & post & ->).
  exists pre, (post ++ b). now rewrite <- !app_assoc.
Qed.

Lemma report_contains_name (filename kB ts message : text) :
  contains filename (Spec.report filename kB ts message) = true.
Proof.
  apply contains_spec. exists (str "File Name: " ++ [TAB] ++ str " ").
  eexists. unfold Spec.report. rewrite <- !app_assoc. reflexivity.
Qed.

Lemma report_contains_message (filename kB ts message : text) :
  contains message (Spec.report filename kB ts message) = true.
Proof.
  unfold Spec.report. repeat apply contains_app_r.
  apply contains_spec. exists [], []. now rewrite app_nil_r.
Qed.

Lemma report_split (filename kB ts message : text) :
  Spec.report filename kB ts message
  = Spec.report filename kB ts [] ++ message.
Proof. unfold Spec.report. rewrite <- !app_assoc. reflexivity. Qed.

Lemma is_valid_of_report (fs : FileSystem) (now : datetime) (filename : Path)
    (result : CompletedProcess) (log : option text) (report : text) :
  validate fs now filename result log = Ok (Some report) ->
  is_valid fs now filename result log = Ok (log_is_valid report).
Proof. intros H. unfold is_valid. now rewrite H. Qed.

Lemma get_unicode_message_shape (fs : FileSystem) (stderr : text)
    (filename : Path) (m : text) :
  get_unicode_message fs stderr filename = Ok m ->
  exists col line_no line char, m = unicode_message col line_no line char.
Proof.
  unfold get_unicode_message.
  destruct (Re.search IN_POSITION stderr) as [[d|]|]; try discriminate.
  destruct (line_of_error fs filename (int d)) as [[[[c n] l] ch]|];
    [|discriminate].
  cbn [bind]. intros [= <-]. eauto.
Qed.

(** X4: a run that exits with a non-zero code is still counted valid
    by [is_valid] when its stderr, free of the decoding marker, holds
    [All checks passed!], or when the name of the file holds it and
    [validate] returns a report: the test looks at the whole
    report. *)
Theorem failed_run_counted_valid (fs : FileSystem) (now : datetime)
    (filename : Path) (result : CompletedProcess) (log : option text)
    (bytes : list Byte.byte) :
  fs !! filename = Some bytes ->
  returncode result <> 0%Z ->
  (contains Spec.DECODE_MARKER (stderr result) = false ->
   contains Spec.PASSED (stderr result) = true ->
   is_valid fs now filename result log = Ok true)
  /\ (contains Spec.PASSED (name filename) = true ->
      forall report,
        validate fs now filename result log = Ok (Some report) ->
        is_valid fs now filename result log = Ok true).
Proof.
  intros Hf Hrc. split.
  - intros Hm Hp.
    assert (Hc : classify fs filename result log
                 = Ok (UseTemplate (Spec.ERROR_PREFIX ++ stderr result)))
      by (now rewrite classify_nonzero, Hm).
    rewrite (is_valid_of_report _ _ _ _ _ _
               (validate_classified _ now _ _ _ bytes _ Hf Hc)).
    f_equal. unfold log_is_valid, Spec.report.
    repeat apply contains_app_r. exact Hp.
  - intros Hn report Hv.
    destruct (classify fs filename result log) as [[m|]|e] eqn:Hc.
    + rewrite (is_valid_of_report _ _ _ _ _ _
                 (validate_classified _ now _ _ _ bytes _ Hf Hc)).
      f_equal. unfold log_is_valid, Spec.report.
      do 3 apply contains_app_r. apply contains_app_l. exact Hn.
    + exfalso. rewrite classify_nonzero in Hc by exact Hrc.
      destruct (contains Spec.DECODE_MARKER (stderr result)); [|discriminate].
      destruct (get_unicode_message fs (stderr result) filename); discriminate.
    + rewrite (validate_raises _ now _ _ _ bytes e Hf Hc) in Hv. discriminate.
Qed.

(** A killed checker whose stderr quotes the phrase, and a failed run
    on a file whose name quotes it. *)
Lemma failed_run_counted_valid_witness :
  is_valid lf_fs noon example1_ags (Completed 137 [] passed_in_stderr) None
  = Ok true
  /\ is_valid passed_in_name_fs noon passed_in_name
       (Completed 1 [] bad_byte_at_6) None
     = Ok true.
Proof.
  split.
  - refine (proj1 (failed_run_counted_valid lf_fs noon example1_ags
                     (Completed 137 [] passed_in_stderr) None lf_bytes _ _)
              _ _).
    + reflexivity.
    + discriminate.
    + vm_compute. reflexivity.
    + vm_compute. reflexivity.
  - refine (proj2 (failed_run_counted_valid passed_in_name_fs noon
                     passed_in_name (Completed 1 [] bad_byte_at_6) None
                     lf_bytes _ _) _ _ _).
    + reflexivity.
    + discriminate.
    + vm_compute. reflexivity.
    + vm_compute. reflexivity.
Defined.

(** X5: when the checker exits with 0, stdout is clean and the log
    starts with an error count, the report is made from the template
    and holds both the name of the file, which such a log lacks, and
    the whole log, at its end. *)
Theorem error_count_report (fs : FileSystem) (now : datetime)
    (filename : Path) (result : CompletedProcess) (l : text)
    (bytes : list Byte.byte) :
  fs !! filename = Some bytes ->
  returncode result = 0%Z ->
  startswith Spec.ERROR_PREFIX (stdout result) = false ->
  starts_with_error_count l ->
  exists report header,
    validate fs now filename result (Some l) = Ok (Some report)
    /\ report = header ++ l
    /\ contains (name filename) header = true
    /\ contains (name filename) report = true
    /\ contains l report = true
    /\ report <> l.
Proof.
  intros Hf Hrc Hout Hl.
  assert (Hc : classify fs filename result (Some l) = Ok (UseTemplate l))
    by (now apply (classify_error_count _ _ _ _ l)).
  rewrite (validate_classified _ now _ _ _ bytes _ Hf Hc).
  eexists _, (Spec.report (name filename) _ _ []).
  split; [reflexivity|]. split; [apply report_split|].
  split; [apply report_contains_name|].
  split; [apply report_contains_name|].
  split; [apply report_contains_message|].
  intros H. apply (f_equal length) in H. unfold Spec.report in H.
  rewrite !length_app in H. cbn [length str list_ascii_of_string] in H. lia.
Qed.

(** Two errors found in [example1.ags]. *)
Lemma error_count_report_witness :
  exists report header,
    validate lf_fs noon example1_ags (Completed 0 [] []) (Some error_count_log)
    = Ok (Some report)
    /\ report = header ++ error_count_log
    /\ contains (name example1_ags) header = true
    /\ contains (name example1_ags) report = true
    /\ contains error_count_log report = true
    /\ report <> error_count_log.
Proof.
  refine (error_count_report lf_fs noon example1_ags (Completed 0 [] [])
            error_count_log lf_bytes _ _ _ error_count_log_counted).
  - reflexivity.
  - reflexivity.
  - reflexivity.
Defined.

(** X6: whenever the template is used, the message starts with
    [ERROR: ] (both messages of a non-zero exit code, and a stdout
    that is taken as it is) or is the log and starts with an error
    count. *)
Theorem template_message_shape (fs : FileSystem) (filename : Path)
    (result : CompletedProcess) (log : option text) (m : text) :
  classify fs filename result log = Ok (UseTemplate m) ->
  (returncode result <> 0%Z /\ startswith Spec.ERROR_PREFIX m = true)
  \/ (returncode result = 0%Z /\ m = stdout result
      /\ startswith Spec.ERROR_PREFIX m = true)
  \/ (returncode result = 0%Z /\ log = Some m /\ starts_with_error_count m).
Proof.
  intros H. destruct (Z.eq_dec (returncode result) 0%Z) as [Hrc|Hrc].
  - right. rewrite classify_zero in H by exact Hrc.
    destruct (startswith Spec.ERROR_PREFIX (stdout result)) eqn:Hout.
    + left. injection H as <-. auto.
    + right. destruct log as [l|]; [|discriminate].
      destruct (Re.rmatch ERRORS_FOUND l) as [g|] eqn:E; [|discriminate].
      injection H as <-. repeat split; [exact Hrc|].
      apply errors_found_iff. eauto.
  - left. split; [exact Hrc|]. rewrite classify_nonzero in H by exact Hrc.
    destruct (contains Spec.DECODE_MARKER (stderr result)).
    + destruct (get_unicode_message fs (stderr result) filename) as [m'|] eqn:Hg;
        [|discriminate].
      cbn [bind] in H. injection H as <-.
      apply get_unicode_message_shape in Hg as (c & n & l & ch & ->).
      reflexivity.
    + injection H as <-. reflexivity.
Qed.

(** The message of a decoding failure at offset 6. *)
Lemma template_message_shape_witness :
  exists m,
    classify lf_fs example1_ags (Completed 1 [] bad_byte_at_6) None
    = Ok (UseTemplate m)
    /\ startswith Spec.ERROR_PREFIX m = true.
Proof.
  eexists. split; [vm_compute; reflexivity|].
  destruct (template_message_shape lf_fs example1_ags
              (Completed 1 [] bad_byte_at_6) None _ eq_refl)
    as [[_ H]|[[H _]|[H _]]]; [exact H | discriminate H | discriminate H].
Defined.

(** ** The locator on any file *)












(** ** Conversion *)

Lemma stem_nonempty (p : Path) : name p <> [] -> stem p <> [].
Proof.
  intros Hn. unfold stem, suffix_start.
  destruct (rfind "." (name p)) as [i|]; [|exact Hn].
  destruct ((0 <? i)%nat && (i <? length (name p) - 1)%nat) eqn:E;
    [|exact Hn].
  apply andb_prop in E as [E _]. apply Nat.ltb_lt in E.
  destruct (name p) as [|c n]; [congruence|].
  destruct i; [lia | discriminate].
Qed.

Lemma new_extension_cases (p : Path) :
  (suffix p = str ".xlsx" /\ new_extension p = str ".ags")
  \/ (suffix p <> str ".xlsx" /\ new_extension p = str ".xlsx").
Proof.
  unfold new_extension.
  destruct (text_eqb (suffix p) (str ".xlsx")) eqn:E.
  - left. apply text_eqb_eq in E. auto.
  - right. split; [|reflexivity]. intros H. apply text_eqb_eq in H. congruence.
Qed.

Lemma converted_parts (filename results_dir : Path) :
  name filename <> [] ->
  stem (converted_path filename results_dir) = stem filename
  /\ suffix (converted_path filename results_dir) = new_extension filename.
Proof.
  intros Hn. pose proof (stem_nonempty filename Hn) as Hs.
  destruct (new_extension_cases filename) as [[_ He]|[_ He]]; rewrite He.
  - apply (stem_suffix _ (stem filename) (str "ags") Hs);
      [discriminate | reflexivity |].
    unfold converted_path. now rewrite name_joinpath, He.
  - apply (stem_suffix _ (stem filename) (str "xlsx") Hs);
      [discriminate | reflexivity |].
    unfold converted_path. now rewrite name_joinpath, He.
Qed.

Lemma convert_failed (fs : FileSystem) (now : datetime)
    (filename results_dir : Path) (result : CompletedProcess)
    (bytes : list Byte.byte) :
  fs !! filename = Some bytes ->
  returncode result <> 0%Z ->
  convert fs now filename results_dir result
  = Ok (None,
        Spec.report (name filename)
          (str_of_N (round_half_even
             (true_div_pow2 (N.of_nat (length bytes)) 10)))
          (strftime now TIME_FORMAT) (Spec.ERROR_PREFIX ++ stderr result),
        unlink fs (converted_path filename results_dir)).
Proof.
  intros Hf Hrc. apply Z.eqb_neq in Hrc.
  unfold convert, st_size. rewrite Hf, Hrc. cbn [bind negb].
  now rewrite format_response_ok.
Qed.

(** X10: whenever [convert] returns, no path comes back exactly when
    the exit code is non-zero or stdout starts with [ERROR: ], and
    then the converted file does not exist afterwards; a path that
    comes back is the converted path and the files are as the
    converter left them.  The input file is never removed, and the
    report holds its name. *)
Theorem convert_outcome (fs : FileSystem) (now : datetime)
    (filename results_dir : Path) (result : CompletedProcess)
    (p : option Path) (log : text) (fs' : FileSystem) :
  convert fs now filename results_dir result = Ok (p, log, fs') ->
  (p = None <->
   returncode result <> 0%Z
   \/ startswith Spec.ERROR_PREFIX (stdout result) = true)
  /\ (p = None ->
      fs' !! converted_path filename results_dir = None)
  /\ (forall q, p = Some q ->
        q = converted_path filename results_dir /\ fs' = fs)
  /\ fs' !! filename = fs !! filename
  /\ contains (name filename) log = true.
Proof.
  unfold convert, st_size. destruct (fs !! filename) as [bytes|] eqn:Hf;
    cbn [bind]; [|discriminate].
  pose proof (converted_path_fresh filename results_dir) as Hfresh.
  destruct (Z.eq_dec (returncode result) 0%Z) as [Hrc|Hrc].
  - rewrite Hrc. cbn [Z.eqb negb]. unfold Spec.ERROR_PREFIX.
    destruct (startswith (str "ERROR: ") (stdout result)) eqn:Hout;
      rewrite format_response_ok; cbn [bind]; intros [= <- <- <-].
    + split; [tauto|]. split; [intros _; apply lookup_delete_eq|].
      split; [discriminate|]. split.
      * unfold unlink. now rewrite lookup_delete_ne.
      * apply report_contains_name.
    + split; [split; [discriminate | intros [H|H]; congruence]|].
      split; [discriminate|]. split; [intros q [= <-]; auto|].
      split; [exact Hf | apply report_contains_name].
  - apply Z.eqb_neq in Hrc. rewrite Hrc. cbn [negb].
    rewrite format_response_ok; cbn [bind]; intros [= <- <- <-].
    apply Z.eqb_neq in Hrc.
    split; [tauto|]. split; [intros _; apply lookup_delete_eq|].
    split; [discriminate|]. split.
    + unfold unlink. now rewrite lookup_delete_ne.
    + apply report_contains_name.
Qed.

(** A failed conversion that left a stale file behind. *)
Lemma convert_outcome_witness :
  unlink xlsx_fs (converted_path example1_xlsx results)
    !! converted_path example1_xlsx results = None
  /\ unlink xlsx_fs (converted_path example1_xlsx results) !! example1_xlsx
     = xlsx_fs !! example1_xlsx.
Proof.
  assert (Hf : xlsx_fs !! example1_xlsx = Some lf_bytes)
    by (vm_compute; reflexivity).
  assert (Hrc : returncode (Completed 1 [] bad_byte_range) <> 0%Z)
    by discriminate.
  destruct (convert_outcome xlsx_fs noon example1_xlsx results
              (Completed 1 [] bad_byte_range) None _ _
              (convert_failed xlsx_fs noon example1_xlsx results
                 (Completed 1 [] bad_byte_range) lf_bytes Hf Hrc))
    as (_ & Hgone & _ & Hkept & _).
  split; [exact (Hgone eq_refl) | exact Hkept].
Defined.

(** X11: for an input with a non-empty name, the converted file keeps
    the stem of the input and takes the other suffix: [.ags] for an
    input [.xlsx], [.xlsx] for every other input, so the suffix
    always changes. *)
Theorem converted_name_parts (filename results_dir : Path) :
  name filename <> [] ->
  stem (converted_path filename results_dir) = stem filename
  /\ suffix (converted_path filename results_dir) = new_extension filename
  /\ suffix (converted_path filename results_dir) <> suffix filename
  /\ (suffix filename = str ".xlsx" ->
      suffix (converted_path filename results_dir) = str ".ags")
  /\ (suffix filename <> str ".xlsx" ->
      suffix (converted_path filename results_dir) = str ".xlsx").
Proof.
  intros Hn. destruct (converted_parts filename results_dir Hn) as [Hs He].
  split; [exact Hs|]. split; [exact He|]. rewrite He.
  destruct (new_extension_cases filename) as [[H1 H2]|[H1 H2]]; rewrite H2.
  - split; [rewrite H1; discriminate|]. split; [reflexivity | congruence].
  - split; [congruence|]. split; [congruence | reflexivity].
Qed.

(** A file with two dots in its name. *)
Lemma converted_name_parts_witness :
  stem (converted_path [str "site.v2.txt"] results) = stem [str "site.v2.txt"]
  /\ suffix (converted_path [str "site.v2.txt"] results)
     = new_extension [str "site.v2.txt"]
  /\ suffix (converted_path [str "site.v2.txt"] results)
     <> suffix [str "site.v2.txt"]
  /\ (suffix [str "site.v2.txt"] = str ".xlsx" ->
      suffix (converted_path [str "site.v2.txt"] results) = str ".ags")
  /\ (suffix [str "site.v2.txt"] <> str ".xlsx" ->
      suffix (converted_path [str "site.v2.txt"] results) = str ".xlsx").
Proof.
  refine (converted_name_parts [str "site.v2.txt"] results _).
  discriminate.
Defined.

(** X12: converting a file named [.ags] or [.xlsx] and then the
    result gives back the name of the first file. *)
Theorem conversion_round_trip (filename dir1 dir2 : Path) :
  suffix filename = str ".ags" \/ suffix filename = str ".xlsx" ->
  converted_path (converted_path filename dir1) dir2 = dir2 ++ [name filename]
  /\ name (converted_path (converted_path filename dir1) dir2) = name filename.
Proof.
  intros Hsuf.
  assert (Hn : name filename <> []).
  { rewrite name_stem_suffix. destruct Hsuf as [-> | ->];
      destruct (stem filename); discriminate. }
  destruct (converted_parts filename dir1 Hn) as [Hs He].
  assert (H : converted_path (converted_path filename dir1) dir2
              = dir2 ++ [name filename]).
  { unfold converted_path at 1. unfold joinpath. do 2 f_equal.
    rewrite Hs. unfold new_extension at 1. rewrite He.
    rewrite (name_stem_suffix filename) at 1. f_equal.
    unfold new_extension.
    destruct Hsuf as [-> | ->]; reflexivity. }
  split; [exact H|]. rewrite H. apply (name_joinpath dir2).
Qed.

(** [example1.ags] to a spreadsheet and back. *)
Lemma conversion_round_trip_witness :
  name (converted_path (converted_path example1_ags results) results)
  = name example1_ags.
Proof.
  refine (proj2 (conversion_round_trip example1_ags results results _)).
  left. reflexivity.
Defined.

(** ** The size shown *)

(** X13: a file of up to 512 bytes, an empty one included, is shown
    as [0 kB], and no larger file is (below 2 ^ 53 bytes): 512 bytes
    are half a kilobyte and the tie goes to the even number. *)
Theorem zero_kB_iff (size : N) :
  (size < 2 ^ 53)%N ->
  str_of_N (round_half_even (true_div_pow2 size 10)) = str "0"
  <-> (size <= 512)%N.
Proof.
  intros Hsize. unfold true_div_pow2.
  rewrite nearest_double_small by exact Hsize.
  pose proof (round_half_even_near size) as Hnear.
  split.
  - intros H. apply (f_equal int) in H. rewrite int_str_of_N in H.
    change (int (str "0")) with 0%N in H. rewrite H in Hnear. lia.
  - intros Hle.
    assert (H0 : round_half_even (Float size 10) = 0%N).
    { unfold round_half_even. cbn [dnum dexp].
      change (N.shiftl 1 10) with 1024%N.
      rewrite N.div_small, N.mod_small by lia.
      change (N.odd 0) with false. rewrite andb_false_r, orb_false_r.
      destruct (1024 <? 2 * size)%N eqn:E; [|reflexivity].
      apply N.ltb_lt in E. lia. }
    rewrite H0. reflexivity.
Qed.

(** Exactly half a kilobyte. *)
Lemma zero_kB_iff_witness :
  str_of_N (round_half_even (true_div_pow2 512 10)) = str "0".
Proof.
  refine (proj2 (zero_kB_iff 512 _) _).
  - vm_compute. reflexivity.
  - vm_compute. discriminate.
Defined.

(** ** Which position the search finds *)

Lemma IN_POSITION_tail :
  IN_POSITION = Re.Item Re.Dot Re.Star false :: POSITION_TAIL.
Proof. reflexivity. Qed.

Lemma run_lit (t : string) (p : Re.pattern) (x : text) (g : option text) :
  Re.run (Re.lit t ++ p) (str t ++ x) g = Re.run p x g.
Proof.
  unfold Re.lit. induction (str t) as [|c cs IH]; [reflexivity|].
  cbn [map app Re.run Re.it_quant Re.it_cls Re.accepts].
  rewrite Ascii.eqb_refl. exact IH.
Qed.

Lemma run_star (k : Re.cls) (p : Re.pattern) (s : text) (g : option text) :
  Re.run (Re.Item k Re.Star false :: p) s g
  = Re.greedy (fun n => Re.run p (drop n s) g) 0 (Re.span k s - 0).
Proof. reflexivity. Qed.

Lemma run_plus_group (k : Re.cls) (p : Re.pattern) (s : text)
    (g : option text) :
  Re.run (Re.Item k Re.Plus true :: p) s g
  = if (1 <=? Re.span k s)%nat
    then Re.greedy (fun n => Re.run p (drop n s) (Some (take n s))) 1
           (Re.span k s - 1)
    else None.
Proof. reflexivity. Qed.

Lemma greedy_top {A} (f : nat -> option A) (lo d : nat) (r : A) :
  f (lo + d)%nat = Some r -> Re.greedy f lo d = Some r.
Proof. intros H. destruct d; cbn [Re.greedy]; now rewrite H. Qed.

Lemma greedy_first {A} (f : nat -> option A) (lo d n : nat) (r : A) :
  (lo <= n <= lo + d)%nat -> f n = Some r ->
  (forall m, (n < m <= lo + d)%nat -> f m = None) ->
  Re.greedy f lo d = Some r.
Proof.
  induction d as [|d IH]; intros Hn Hf Hnone.
  - replace n with (lo + 0)%nat in Hf by lia. now apply greedy_top.
  - destruct (decide (n = lo + S d)%nat) as [->|Hne].
    + now apply greedy_top.
    + cbn [Re.greedy]. rewrite (Hnone (lo + S d)%nat) by lia.
      apply IH; [lia | exact Hf |]. intros m Hm. apply Hnone. lia.
Qed.

Lemma digit_not_LF (c : ascii) : is_digit c = true -> not_LF c = true.
Proof.
  intros H. unfold not_LF. destruct (Ascii.eqb c LF) eqn:E; [|reflexivity].
  apply Ascii.eqb_eq in E. subst c. discriminate.
Qed.

Lemma digits_not_LF (d : text) :
  forallb is_digit d = true -> forallb not_LF d = true.
Proof.
  induction d as [|c d IH]; [reflexivity|]. cbn [forallb].
  intros H. apply andb_prop in H as [Hc Hd].
  now rewrite (digit_not_LF c Hc), IH.
Qed.

Lemma span_digits (d y : text) :
  forallb is_digit d = true -> Re.span Re.Digit (d ++ ":"%char :: y) = length d.
Proof.
  induction d as [|c d IH]; [reflexivity|]. cbn [forallb app Re.span length].
  intros H. apply andb_prop in H as [Hc Hd].
  cbn [Re.accepts]. now rewrite Hc, IH.
Qed.

Lemma tail_shape (x : text) (g r : option text) :
  Re.run POSITION_TAIL x g = Some r ->
  exists d y, x = str "in position " ++ d ++ str ":" ++ y
              /\ d <> [] /\ forallb is_digit d = true.
Proof.
  intros H. apply run_sound in H as (w & rest & -> & H).
  unfold POSITION_TAIL in H.
  apply denote_lit in H as (w1 & -> & H).
  destruct H as (d & w2 & -> & [Hne Hd] & H).
  apply denote_lit in H as (w3 & -> & _).
  exists d, (w3 ++ rest). rewrite <- !app_assoc. auto.
Qed.

Lemma tail_exact (d y : text) (g : option text) :
  d <> [] -> forallb is_digit d = true ->
  Re.run POSITION_TAIL (str "in position " ++ d ++ str ":" ++ y) g
  = Some (Some d).
Proof.
  intros Hne Hd. unfold POSITION_TAIL. rewrite run_lit, run_plus_group.
  change (str ":" ++ y) with (":"%char :: y).
  rewrite (span_digits d y Hd).
  assert (Hlen : (1 <= length d)%nat) by (destruct d; [congruence | simpl; lia]).
  apply Nat.leb_le in Hlen as Hleb. rewrite Hleb.
  apply greedy_top. replace (1 + (length d - 1))%nat with (length d) by lia.
  rewrite drop_app_length, take_app_length.
  change (":"%char :: y) with (str ":" ++ y).
  rewrite run_lit, run_star. now apply greedy_top.
Qed.

(** No match of the tail starts inside [in position <d>:] after its
    first character, and one that starts later lies in what follows. *)
Lemma no_restart (k : nat) (d b x : text) :
  (1 <= k)%nat -> forallb is_digit d = true ->
  drop k (str "in position " ++ d ++ str ":" ++ b) = str "in position " ++ x ->
  exists pre, b = pre ++ str "in position " ++ x.
Proof.
  intros Hk Hd H.
  do 12 (destruct k as [|k]; [try lia; cbn in H; discriminate H|]).
  change (drop (S (S (S (S (S (S (S (S (S (S (S (S k))))))))))))
            (str "in position " ++ d ++ str ":" ++ b))
    with (drop k (d ++ str ":" ++ b)) in H.
  clear Hk. revert k H. induction d as [|c d IH]; intros k H.
  - destruct k as [|k]; [cbn in H; discriminate H|].
    change (drop (S k) ([] ++ str ":" ++ b)) with (drop k b) in H.
    exists (take k b). now rewrite <- H, take_drop.
  - cbn [forallb] in Hd. apply andb_prop in Hd as [Hc Hd'].
    destruct k as [|k].
    + cbn in H. injection H as -> _. discriminate Hc.
    + apply (IH Hd' k). exact H.
Qed.

Lemma line_run (a1 d b : text) :
  forallb not_LF a1 = true ->
  d <> [] -> forallb is_digit d = true ->
  ~ Spec.has_position b ->
  Re.run IN_POSITION (a1 ++ str "in position " ++ d ++ str ":" ++ b) None
  = Some (Some d).
Proof.
  intros Ha Hne Hd Hb. rewrite IN_POSITION_tail, run_star.
  pose proof (span_app Re.Dot a1 (str "in position " ++ d ++ str ":" ++ b) Ha)
    as Hspan.
  apply (greedy_first _ 0 _ (length a1)); [lia | |].
  - rewrite drop_app_length. now apply tail_exact.
  - intros m Hm.
    destruct (Re.run POSITION_TAIL
                (drop m (a1 ++ str "in position " ++ d ++ str ":" ++ b)) None)
      as [r|] eqn:E; [|reflexivity].
    exfalso. apply tail_shape in E as (d' & y & E & Hne' & Hd').
    rewrite drop_app_ge in E by lia.
    apply no_restart in E as [pre E]; [|lia | exact Hd].
    apply Hb. now exists pre, d', y.
Qed.

Lemma prefix_before_LF (w : text) :
  forallb not_LF w = true ->
  forall u rest t, w ++ rest = u ++ LF :: t -> exists y, u = w ++ y.
Proof.
  induction w as [|c w IH]; intros Hw u rest t H; [eauto|].
  cbn [forallb] in Hw. apply andb_prop in Hw as [Hc Hw].
  destruct u as [|c' u].
  - cbn in H. injection H as -> _. discriminate Hc.
  - cbn in H. injection H as <- H.
    destruct (IH Hw u rest t H) as [y ->]. now exists y.
Qed.

Lemma no_match_before_LF (a t : text) :
  ~ Spec.has_position (a ++ [LF]) ->
  Re.run IN_POSITION ((a ++ [LF]) ++ t) None = None.
Proof.
  intros Hno.
  destruct (Re.run IN_POSITION ((a ++ [LF]) ++ t) None) as [r|] eqn:E;
    [|reflexivity].
  exfalso. apply run_sound in E as (w & rest & Hs & Hw).
  apply in_position_denote_iff in Hw
    as (x & d & y & -> & _ & Hne & Hd & Hx & Hy).
  rewrite <- app_assoc in Hs. symmetry in Hs.
  apply prefix_before_LF in Hs as [z Hz].
  - apply Hno. exists x, d, (y ++ z ++ [LF]).
    rewrite Hz, <- !app_assoc. auto.
  - rewrite !forallb_app. change (Re.accepts Re.Dot) with not_LF in Hx, Hy.
    rewrite Hx, Hy, (digits_not_LF d Hd). reflexivity.
Qed.

Lemma has_position_suffix (c : ascii) (a : text) :
  Spec.has_position a -> Spec.has_position (c :: a).
Proof. intros (pre & d & post & -> & H). now exists (c :: pre), d, post. Qed.

Lemma search_skips_lines (a0 t : text) :
  (a0 = [] \/ exists a', a0 = a' ++ [LF]) ->
  ~ Spec.has_position a0 ->
  Re.search IN_POSITION (a0 ++ t) = Re.search IN_POSITION t.
Proof.
  induction a0 as [|c a0 IH]; intros Hend Hno; [reflexivity|].
  destruct Hend as [H|[a' Ha']]; [discriminate|].
  cbn [app Re.search].
  change (c :: a0 ++ t) with ((c :: a0) ++ t). rewrite Ha'.
  rewrite no_match_before_LF by (now rewrite <- Ha').
  apply IH.
  - destruct a' as [|c' a']; [left | right].
    + now injection Ha'.
    + injection Ha' as _ ->. eauto.
  - intros H. apply Hno. now apply has_position_suffix.
Qed.

Lemma search_at_start (p : Re.pattern) (s : text) (g : option text) :
  Re.run p s None = Some g -> Re.search p s = Some g.
Proof. intros H. destruct s; cbn [Re.search]; now rewrite H. Qed.

(** X14: when stderr is whole lines without [in position <digits>:],
    then a line that reaches [in position <d>:], then text without
    such a substring, the search captures [d]: of several positions
    on that line the last one is taken, and the lines of a traceback
    before it are passed over. *)
Theorem last_position_used (a0 a1 d b : text) :
  (a0 = [] \/ exists a', a0 = a' ++ [LF]) ->
  ~ Spec.has_position a0 ->
  forallb not_LF a1 = true ->
  d <> [] -> forallb is_digit d = true ->
  ~ Spec.has_position b ->
  Re.search IN_POSITION
    (a0 ++ a1 ++ str "in position " ++ d ++ str ":" ++ b)
  = Some (Some d).
Proof.
  intros Ha0 Hno0 Ha1 Hne Hd Hb.
  rewrite search_skips_lines by assumption.
  apply search_at_start. now apply line_run.
Qed.

(** The traceback of a decoding failure at offset 6. *)
Lemma last_position_used_witness :
  Re.search IN_POSITION traceback = Some (Some (str "6")).
Proof.
  refine (last_position_used
            (str "Traceback (most recent call last):" ++ [LF]
             ++ str "  File " ++ [DQUOTE] ++ str "codecs.py" ++ [DQUOTE]
             ++ str ", line 322, in decode" ++ [LF])
            (str "UnicodeDecodeError: 'utf-8' codec can't decode byte 0x9c ")
            (str "6") (str " invalid start byte" ++ [LF]) _ _ _ _ _ _).
  - right.
    exists (str "Traceback (most recent call last):" ++ [LF]
            ++ str "  File " ++ [DQUOTE] ++ str "codecs.py" ++ [DQUOTE]
            ++ str ", line 322, in decode").
    vm_compute. reflexivity.
  - intros H. apply in_position_complete in H as [d Hd].
    vm_compute in Hd. discriminate.
  - reflexivity.
  - discriminate.
  - reflexivity.
  - intros H. apply in_position_complete in H as [d Hd].
    vm_compute in Hd. discriminate.
Defined.



(** ** What the log cannot change *)

Lemma classify_ignores_log (fs : FileSystem) (filename : Path)
    (result : CompletedProcess) (log log' : option text) :
  returncode result <> 0%Z
  \/ startswith Spec.ERROR_PREFIX (stdout result) = true ->
  classify fs filename result log = classify fs filename result log'.
Proof.
  intros H. destruct (Z.eq_dec (returncode result) 0%Z) as [Hrc|Hrc].
  - destruct H as [H|H]; [congruence|].
    now rewrite !classify_zero, H by exact Hrc.
  - now rewrite !classify_nonzero by exact Hrc.
Qed.

(** X16: when the exit code is non-zero or stdout starts with
    [ERROR: ], what was read from the log file plays no part in the
    lines after the reading: for any two values of [log], a text or
    [None], the rest of [validate] gives the same result. *)
Theorem log_ignored_on_error (fs : FileSystem) (now : datetime)
    (filename : Path) (result : CompletedProcess) (log log' : option text) :
  returncode result <> 0%Z
  \/ startswith Spec.ERROR_PREFIX (stdout result) = true ->
  validate fs now filename result log = validate fs now filename result log'.
Proof.
  intros H. unfold validate. destruct (st_size fs filename); [|reflexivity].
  cbn [bind]. rewrite (classify_ignores_log _ _ _ log log' H).
  destruct (classify fs filename result log') as [[m|]|e] eqn:Hc;
    try reflexivity.
  exfalso. destruct H as [H|H].
  - rewrite classify_nonzero in Hc by exact H.
    destruct (contains _ _); [|discriminate].
    destruct (get_unicode_message _ _ _); discriminate.
  - destruct (Z.eq_dec (returncode result) 0%Z) as [Hrc|Hrc].
    + rewrite classify_zero, H in Hc by exact Hrc. discriminate.
    + rewrite classify_nonzero in Hc by exact Hrc.
      destruct (contains _ _); [|discriminate].
      destruct (get_unicode_message _ _ _); discriminate.
Qed.

(** A rejected extension, with and without a stale log of a valid
    file. *)
Lemma log_ignored_on_error_witness :
  validate lf_fs noon example1_ags (Completed 0 wrong_extension [])
    (Some passed_log)
  = validate lf_fs noon example1_ags (Completed 0 wrong_extension []) None.
Proof.
  refine (log_ignored_on_error lf_fs noon example1_ags
            (Completed 0 wrong_extension []) (Some passed_log) None _).
  right. reflexivity.
Defined.

(** ** The lines of a report *)

Lemma zero_pad_digits (w : nat) (n : N) :
  forallb is_digit (zero_pad w n) = true.
Proof.
  unfold zero_pad. rewrite forallb_app, str_of_N_digits, andb_true_r.
  induction (w - length (str_of_N n))%nat as [|k IH]; [reflexivity | exact IH].
Qed.

Lemma strftime_one_line (t : datetime) :
  forallb not_LF (strftime t TIME_FORMAT) = true.
Proof.
  rewrite strftime_fields, !forallb_app.
  rewrite !(digits_not_LF _ (zero_pad_digits _ _)). reflexivity.
Qed.

(** X17: when the name of the file holds no newline, a report made
    from the template is three header lines, an empty line and then
    the lines of the message: split at newlines, its first line is
    [File Name:] with the name, and the lines from the fifth on are
    those of the message. *)
Theorem report_header_lines (filename : text) (filesize : float)
    (now : datetime) (message : text) :
  forallb not_LF filename = true ->
  exists report size_line time_line,
    format_response filename filesize (strftime now TIME_FORMAT) message
    = Ok report
    /\ split LF report
       = [str "File Name: " ++ [TAB] ++ str " " ++ filename;
          size_line; time_line; []] ++ split LF message.
Proof.
  intros Hname. rewrite format_response_ok.
  eexists _, (str "File Size: " ++ [TAB] ++ str " "
              ++ str_of_N (round_half_even filesize) ++ str " kB"),
    (str "Time (UTC): " ++ [TAB] ++ str " " ++ strftime now TIME_FORMAT).
  split; [reflexivity|]. unfold Spec.report.
  replace (str "File Name: " ++ [TAB] ++ str " " ++ filename ++ [LF]
           ++ str "File Size: " ++ [TAB] ++ str " "
           ++ str_of_N (round_half_even filesize) ++ str " kB" ++ [LF]
           ++ str "Time (UTC): " ++ [TAB] ++ str " "
           ++ strftime now TIME_FORMAT ++ [LF] ++ [LF] ++ message)
    with ((str "File Name: " ++ [TAB] ++ str " " ++ filename)
          ++ LF :: (str "File Size: " ++ [TAB] ++ str " "
                    ++ str_of_N (round_half_even filesize) ++ str " kB")
          ++ LF :: (str "Time (UTC): " ++ [TAB] ++ str " "
                    ++ strftime now TIME_FORMAT)
          ++ LF :: [] ++ LF :: message)
    by (rewrite <- !app_assoc; reflexivity).
  assert (H1 : forallb not_LF
                 (str "File Name: " ++ [TAB] ++ str " " ++ filename) = true)
    by (rewrite !forallb_app, Hname; reflexivity).
  assert (H2 : forallb not_LF
                 (str "File Size: " ++ [TAB] ++ str " "
                  ++ str_of_N (round_half_even filesize) ++ str " kB") = true)
    by (rewrite !forallb_app, (digits_not_LF _ (str_of_N_digits _));
        reflexivity).
  assert (H3 : forallb not_LF
                 (str "Time (UTC): " ++ [TAB] ++ str " "
                  ++ strftime now TIME_FORMAT) = true)
    by (rewrite !forallb_app, strftime_one_line; reflexivity).
  rewrite !split_app.
  rewrite (split_one_line _ H1), (split_one_line _ H2), (split_one_line _ H3).
  reflexivity.
Qed.

(** The report of a rejected extension. *)
Lemma report_header_lines_witness :
  exists report size_line time_line,
    format_response (name example1_ags) (Float 8 10)
      (strftime noon TIME_FORMAT) wrong_extension
    = Ok report
    /\ split LF report
       = [str "File Name: " ++ [TAB] ++ str " " ++ name example1_ags;
          size_line; time_line; []] ++ split LF wrong_extension.
Proof.
  refine (report_header_lines (name example1_ags) (Float 8 10) noon
            wrong_extension _).
  reflexivity.
Defined.

(** ** The timestamp and the instant *)

Lemma fixed_digits_inj (w : nat) (n1 n2 : N) (s1 s2 r1 r2 : text) :
  fixed_digits w n1 s1 -> fixed_digits w n2 s2 ->
  s1 ++ r1 = s2 ++ r2 -> n1 = n2 /\ r1 = r2.
Proof.
  intros (L1 & _ & I1) (L2 & _ & I2) H.
  apply app_inj_1 in H as [-> ->]; [|congruence].
  split; [congruence | reflexivity].
Qed.

(** X18: the timestamp keeps the instant to the second: two clock
    readings written the same way are the same reading. *)
Theorem timestamp_injective (t1 t2 : datetime) :
  valid_datetime t1 -> valid_datetime t2 ->
  strftime t1 TIME_FORMAT = strftime t2 TIME_FORMAT -> t1 = t2.
Proof.
  intros H1 H2 H.
  destruct (strftime_timestamp t1 H1)
    as (Y1 & M1 & D1 & h1 & m1 & s1 & E1 & FY1 & FM1 & FD1 & Fh1 & Fm1 & Fs1).
  destruct (strftime_timestamp t2 H2)
    as (Y2 & M2 & D2 & h2 & m2 & s2 & E2 & FY2 & FM2 & FD2 & Fh2 & Fm2 & Fs2).
  rewrite E1, E2 in H.
  apply (fixed_digits_inj _ _ _ _ _ _ _ FY1 FY2) in H as [HY H].
  injection H as H.
  apply (fixed_digits_inj _ _ _ _ _ _ _ FM1 FM2) in H as [HM H].
  injection H as H.
  apply (fixed_digits_inj _ _ _ _ _ _ _ FD1 FD2) in H as [HD H].
  injection H as H.
  apply (fixed_digits_inj _ _ _ _ _ _ _ Fh1 Fh2) in H as [Hh H].
  injection H as H.
  apply (fixed_digits_inj _ _ _ _ _ _ _ Fm1 Fm2) in H as [Hm H].
  injection H as H.
  rewrite <- (app_nil_r s1), <- (app_nil_r s2) in H.
  apply (fixed_digits_inj _ _ _ _ _ _ _ Fs1 Fs2) in H as [Hs _].
  destruct t1, t2. cbn in *. congruence.
Qed.

(** Noon read twice. *)
Lemma timestamp_injective_witness : noon = noon.
Proof.
  exact (timestamp_injective noon noon noon_valid noon_valid eq_refl).
Defined.

(** ** The order of the branches *)



(** ** The message of a decoding failure *)


